(** * ContinualViTLitModule: the control logic of the continual-learning
      Lightning module (src/models/continual_vit_module.py)

    The module orchestrates a network, two loss functions, two accuracy
    calculators and three registries of running metrics.  The embedding keeps
    the Python structure: dictionaries are finite maps with string keys, a
    missing key raises [KeyError], methods are computations in a state and
    exception monad over the module object, and everything that lives outside
    the file (torch, torchmetrics, the losses, the class-range resolver) is an
    interface the development is parametric in. *)

From Stdlib Require Import ZArith Floats Reals Lra Ascii String.
From stdpp Require Import gmap strings list fin_maps.

Local Open Scope Z_scope.

(** ** Python values *)

Inductive Exn :=
| KeyError (key : string)
| TypeError
| ValueError
| OverflowError
| ResolverError (msg : string).

Inductive Result (A : Type) :=
| Ok (a : A)
| Raise (e : Exn).
Arguments Ok {A} a.
Arguments Raise {A} e.

Module Py.

(** [d[key]] on a dictionary. *)
Definition getitem {V} (d : gmap string V) (key : string) : Result V :=
  match d !! key with
  | Some v => Ok v
  | None => Raise (KeyError key)
  end.

(** [s.replace(old, new)] for one-character [old] and [new]. *)
Fixpoint replace (old new : ascii) (s : string) : string :=
  match s with
  | EmptyString => EmptyString
  | String c s' =>
      String (if Ascii.eqb c old then new else c) (replace old new s')
  end.

(** A Python [float] is an IEEE binary64 number, as Rocq's primitive floats:
    [float(n)] for an [int] in the exactly representable range. *)
Definition float_of_int (n : Z) : float :=
  if n <? 0 then PrimFloat.opp (PrimFloat.of_uint63 (Uint63.of_Z (- n)))
  else PrimFloat.of_uint63 (Uint63.of_Z n).

(** [int(x)]: truncation toward zero; raises on NaN and on the infinities. *)
Definition int (x : float) : Result Z :=
  match Prim2SF x with
  | S754_zero _ => Ok 0
  | S754_finite s m e =>
      let v := if 0 <=? e then Z.pos m * 2 ^ e else Z.pos m / 2 ^ (- e) in
      Ok (if s then - v else v)
  | S754_infinity _ => Raise OverflowError
  | S754_nan => Raise ValueError
  end.

End Py.

(** ** The interfaces the module is written against *)

(** torch and torchmetrics.  [tensor_values] and [tensor_ints] read the
    entries of a float and of an integer tensor ([tolist] after flattening);
    [torch_argmax] and [torch_softmax] are taken along dimension 1.  The
    streaming multiclass accuracy is kept abstract: a state, its default for
    a class count, and its update from predictions and targets. *)
Class Torch := {
  Tensor : Type;
  Params : Type;
  Optimizer : Type;
  Scheduler : Type;
  tensor_add : Tensor -> Tensor -> Tensor;
  tensor_rmul : float -> Tensor -> Tensor;
  torch_tensor : float -> Tensor;
  torch_argmax : Tensor -> Tensor;
  torch_softmax : Tensor -> Tensor;
  tensor_values : Tensor -> list float;
  tensor_ints : Tensor -> list Z;
  torch_compile : (Tensor -> Tensor * Tensor) -> (Tensor -> Tensor * Tensor);
  AccuracyState : Type;
  Accuracy_default : Z -> AccuracyState;
  Accuracy_update : Z -> AccuracyState -> Tensor -> Tensor -> AccuracyState;
}.

(** The functions imported from the rest of the repository.  The resolver
    returns four values of which the module keeps the last two. *)
Class Collaborators `{Torch} := {
  RangeBounds : Type;
  masked_cross_entropy_loss : Tensor -> Tensor -> list Z -> Tensor;
  quaternion_geodesic_loss : Tensor -> Tensor -> Tensor;
  get_rotation_error_in_degrees : Tensor -> Tensor -> Tensor;
  compute_class_ranges :
    option Z -> Z -> Result (RangeBounds * RangeBounds * list Z * list Z);
}.


(** ** Softmax over the reals *)

Module RealSoftmax.
Local Open Scope R_scope.

Definition Rsum (l : list R) : R := foldr Rplus 0 l.

(** The normalized exponential of one row of logits. *)
Definition softmax (row : list R) : list R :=
  let total := Rsum (map exp row) in
  map (fun x => exp x / total) row.

End RealSoftmax.

(** Tensors read as real matrices, with [torch_softmax] the row-wise
    normalized exponential: the exact counterpart of the floating-point one. *)
Class RealView `{Torch} := {
  tensor_rows : Tensor -> list (list R);
  softmax_rows :
    forall t, tensor_rows (torch_softmax t) = map RealSoftmax.softmax (tensor_rows t);
}.


(** ** torchmetrics: the two aggregators the module builds *)

Section ContinualViT.
Context {torch : Torch} {collaborators : Collaborators}.

Definition Device := string.

(** [MeanMetric] keeps the weighted sum of the values it was fed and the sum
    of their weights (here always 1). *)
Record MeanMetricState := {
  mean_value : float;
  weight : float;
}.

Definition MeanMetric_default : MeanMetricState :=
  {| mean_value := 0; weight := 0 |}.

Definition float_sum (l : list float) : float := foldl PrimFloat.add 0%float l.

(** [MeanMetric.update(value)] with the default [nan_strategy]: NaN entries
    are removed (with a warning), an empty remainder leaves the state as it
    is, otherwise the remaining entries are added up with weight 1 each. *)
Definition MeanMetric_update (value : Tensor) (s : MeanMetricState) : MeanMetricState :=
  let kept := List.filter (fun x => negb (PrimFloat.is_nan x)) (tensor_values value) in
  match kept with
  | [] => s
  | _ :: _ =>
      {| mean_value := mean_value s + float_sum kept;
         weight := weight s + float_sum (map (fun _ => 1%float) kept) |}
  end.

Inductive Metric :=
| MeanMetric (dev : Device) (state : MeanMetricState)
| Accuracy (dev : Device) (num_classes : Z) (state : AccuracyState).

(** [metric.to(device)]: the accumulated values are kept. *)
Definition Metric_to (d : Device) (metric : Metric) : Metric :=
  match metric with
  | MeanMetric _ s => MeanMetric d s
  | Accuracy _ n s => Accuracy d n s
  end.

(** [metric.reset()]: every state goes back to its default. *)
Definition Metric_reset (metric : Metric) : Metric :=
  match metric with
  | MeanMetric d _ => MeanMetric d MeanMetric_default
  | Accuracy d n _ => Accuracy d n (Accuracy_default n)
  end.

(** [metric.update]: one value for a mean, predictions and targets for
    the accuracy.  The optional weight of [MeanMetric.update] is never passed
    by the module and is not modelled: any other call shape is a [TypeError]. *)
Definition Metric_update (args : list Tensor) (metric : Metric) : Result Metric :=
  match metric, args with
  | MeanMetric d s, [value] => Ok (MeanMetric d (MeanMetric_update value s))
  | Accuracy d n s, [preds; target] => Ok (Accuracy d n (Accuracy_update n s preds target))
  | _, _ => Raise TypeError
  end.

(** The accumulators of a running mean, whatever device it is on. *)
Definition mean_state (metric : Metric) : option MeanMetricState :=
  match metric with
  | MeanMetric _ s => Some s
  | Accuracy _ _ _ => None
  end.

(** A metric that holds nothing: the state [reset] leaves behind. *)
Definition is_empty (metric : Metric) : Prop :=
  match metric with
  | MeanMetric _ s => s = MeanMetric_default
  | Accuracy _ n s => s = Accuracy_default n
  end.

(** ** The module object *)

Inductive Split := Train | Val | Test.

#[global] Instance Split_eq_dec : EqDecision Split.
Proof. solve_decision. Defined.

(** The constructor's arguments, as [save_hyperparameters] records them.  A
    scheduler factory is called with the optimizer, [num_warmup_steps] and
    [num_training_steps], in this order. *)
Record HParams := {
  hp_net : Tensor -> Tensor * Tensor;
  optimizer : Params -> Optimizer;
  scheduler : option (Optimizer -> Z -> Z -> Scheduler);
  rotation_weight : float;
  compile : bool;
  hp_task_id : Z;
  num_classes_for_task : option Z;
}.

(** One call of [log_dict]: the registry handed over and the flags. *)
Record LogCall := {
  log_split : Split;
  on_step : bool;
  on_epoch : bool;
  prog_bar : bool;
}.

(** [attributes] holds the metric attributes bound by [setattr]: attribute
    name to the registry key of the metric object it aliases.  [device] is the
    harness's placement of the module. *)
Record LitModule := {
  hparams : HParams;
  net : Tensor -> Tensor * Tensor;
  task_id : Z;
  train_metrics : gmap string Metric;
  val_metrics : gmap string Metric;
  test_metrics : gmap string Metric;
  current_task_classes : list Z;
  all_seen_classes : list Z;
  attributes : gmap string string;
  device : Device;
  logged : list LogCall;
}.

Definition metrics_of (sp : Split) (m : LitModule) : gmap string Metric :=
  match sp with
  | Train => train_metrics m
  | Val => val_metrics m
  | Test => test_metrics m
  end.

Definition set_metrics (sp : Split) (r : gmap string Metric) (m : LitModule) : LitModule :=
  {| hparams := hparams m; net := net m; task_id := task_id m;
     train_metrics := match sp with Train => r | _ => train_metrics m end;
     val_metrics := match sp with Val => r | _ => val_metrics m end;
     test_metrics := match sp with Test => r | _ => test_metrics m end;
     current_task_classes := current_task_classes m;
     all_seen_classes := all_seen_classes m;
     attributes := attributes m; device := device m; logged := logged m |}.

Definition set_net (f : Tensor -> Tensor * Tensor) (m : LitModule) : LitModule :=
  {| hparams := hparams m; net := f; task_id := task_id m;
     train_metrics := train_metrics m; val_metrics := val_metrics m;
     test_metrics := test_metrics m;
     current_task_classes := current_task_classes m;
     all_seen_classes := all_seen_classes m;
     attributes := attributes m; device := device m; logged := logged m |}.

Definition set_class_ranges (current all_seen : list Z) (m : LitModule) : LitModule :=
  {| hparams := hparams m; net := net m; task_id := task_id m;
     train_metrics := train_metrics m; val_metrics := val_metrics m;
     test_metrics := test_metrics m;
     current_task_classes := current;
     all_seen_classes := all_seen;
     attributes := attributes m; device := device m; logged := logged m |}.

Definition set_attributes (a : gmap string string) (m : LitModule) : LitModule :=
  {| hparams := hparams m; net := net m; task_id := task_id m;
     train_metrics := train_metrics m; val_metrics := val_metrics m;
     test_metrics := test_metrics m;
     current_task_classes := current_task_classes m;
     all_seen_classes := all_seen_classes m;
     attributes := a; device := device m; logged := logged m |}.

Definition set_device (d : Device) (m : LitModule) : LitModule :=
  {| hparams := hparams m; net := net m; task_id := task_id m;
     train_metrics := train_metrics m; val_metrics := val_metrics m;
     test_metrics := test_metrics m;
     current_task_classes := current_task_classes m;
     all_seen_classes := all_seen_classes m;
     attributes := attributes m; device := d; logged := logged m |}.

Definition add_log (c : LogCall) (m : LitModule) : LitModule :=
  {| hparams := hparams m; net := net m; task_id := task_id m;
     train_metrics := train_metrics m; val_metrics := val_metrics m;
     test_metrics := test_metrics m;
     current_task_classes := current_task_classes m;
     all_seen_classes := all_seen_classes m;
     attributes := attributes m; device := device m; logged := logged m ++ [c] |}.

(** ** Methods: state and exceptions

    A method runs on the module object and either returns or raises; what it
    changed before raising stays changed. *)

Definition M (A : Type) : Type := LitModule -> Result A * LitModule.

#[local] Instance M_ret : MRet M := fun A a m => (Ok a, m).

#[local] Instance M_bind : MBind M := fun A B k c m =>
  match c m with
  | (Ok a, m') => k a m'
  | (Raise e, m') => (Raise e, m')
  end.

Definition gets {A} (f : LitModule -> A) : M A := fun m => (Ok (f m), m).

Definition modify (f : LitModule -> LitModule) : M unit := fun m => (Ok tt, f m).

Definition lift {A} (r : Result A) : M A := fun m => (r, m).

(** A dictionary display [{k1: v1, ...}]: insertion from left to right, a
    repeated key keeps its last value. *)
Definition dict_of {V} (items : list (string * V)) : gmap string V :=
  foldl (fun d kv => <[kv.1 := kv.2]> d) ∅ items.

(** [metrics[key].update(args)]: the metric object stored under [key] in the
    registry of [sp] is updated in place. *)
Definition update_metric (sp : Split) (key : string) (args : list Tensor) : M unit :=
  fun m =>
    match Py.getitem (metrics_of sp m) key with
    | Raise e => (Raise e, m)
    | Ok metric =>
        match Metric_update args metric with
        | Raise e => (Raise e, m)
        | Ok metric' => (Ok tt, set_metrics sp (<[key := metric']> (metrics_of sp m)) m)
        end
    end.

(** Modelled from the spec: [calculate_continual_accuracy]
    (src/metrics/continual_accuracy.py is not part of the sources at hand).
    The fraction of evaluable examples, those whose ground-truth label lies in
    the restriction set, that are predicted correctly; an example whose label
    lies outside the set counts neither in the numerator nor in the
    denominator.  The fraction is a floating-point quotient, so that no
    evaluable example gives 0/0. *)
Definition calculate_continual_accuracy
    (pred_indices targets : Tensor) (classes : list Z) : Tensor :=
  let examples := zip (tensor_ints pred_indices) (tensor_ints targets) in
  let evaluable := List.filter (fun pt => bool_decide (pt.2 ∈ classes)) examples in
  let correct := List.filter (fun pt => bool_decide (pt.1 = pt.2)) evaluable in
  torch_tensor
    (Py.float_of_int (Z.of_nat (length correct))
     / Py.float_of_int (Z.of_nat (length evaluable)))%float.

(** *** Construction *)

Definition create_metrics (prefix : string) : M (gmap string Metric) :=
  let items :=
    [ (prefix +:+ "/loss", MeanMetric "cpu" MeanMetric_default);
      (prefix +:+ "/classification_loss", MeanMetric "cpu" MeanMetric_default);
      (prefix +:+ "/quaternion_geodesic_loss", MeanMetric "cpu" MeanMetric_default);
      (prefix +:+ "/class_acc", Accuracy "cpu" 77 (Accuracy_default 77));
      (prefix +:+ "/rotation_error", MeanMetric "cpu" MeanMetric_default);
      (prefix +:+ "/all_seen_class_acc", MeanMetric "cpu" MeanMetric_default);
      (prefix +:+ "/current_task_class_acc", MeanMetric "cpu" MeanMetric_default) ] in
  let metrics := dict_of items in
  (* Register metrics as attributes *)
  _ ← modify (fun m =>
         set_attributes
           (foldl (fun a name => <[Py.replace "/" "_" name := name]> a)
                  (attributes m) (items.*1)) m);
  mret metrics.

(** The object as it stands when the registries are about to be created:
    hyperparameters saved, [net] and [task_id] bound. *)
Definition new_module (hp : HParams) : LitModule :=
  {| hparams := hp; net := hp_net hp; task_id := hp_task_id hp;
     train_metrics := ∅; val_metrics := ∅; test_metrics := ∅;
     current_task_classes := []; all_seen_classes := [];
     attributes := ∅; device := "cpu"; logged := [] |}.

Definition init_body : M unit :=
  (* Create metric objects *)
  train ← create_metrics "train";
  _ ← modify (set_metrics Train train);
  val ← create_metrics "val";
  _ ← modify (set_metrics Val val);
  test ← create_metrics "test";
  _ ← modify (set_metrics Test test);
  (* Compute class ranges for continual learning *)
  n ← gets (fun m => num_classes_for_task (hparams m));
  t ← gets (fun m => hp_task_id (hparams m));
  ranges ← lift (compute_class_ranges n t);
  let '(_, _, current, all_seen) := ranges in
  modify (set_class_ranges current all_seen).

(** [ContinualViTLitModule(...)]: an exception of the resolver leaves no
    module behind. *)
Definition __init__ (hp : HParams) : Result LitModule :=
  match init_body (new_module hp) with
  | (Ok _, m) => Ok m
  | (Raise e, _) => Raise e
  end.

(** *** Steps *)

Definition forward (x : Tensor) : M (Tensor * Tensor) :=
  gets (fun m => net m x).

(** The bound attribute [self.classification_loss]. *)
Definition classification_loss := masked_cross_entropy_loss.

Definition ModelStepOutput : Type :=
  Tensor * Tensor * Tensor * Tensor * Tensor * Tensor * Tensor.

Definition model_step (batch : gmap string Tensor) : M ModelStepOutput :=
  rgbd_image ← lift (Py.getitem batch "rgbd_image");
  object_ids ← lift (Py.getitem batch "object_ids");
  unit_quaternion ← lift (Py.getitem batch "unit_quaternion");
  out ← forward rgbd_image;
  let '(pred_class, pred_quaternion) := out in
  (* Always use all_seen_classes for valid classes *)
  valid_classes ← gets all_seen_classes;
  let classification_loss := classification_loss pred_class object_ids valid_classes in
  let quat_geodesic_loss := quaternion_geodesic_loss pred_quaternion unit_quaternion in
  w ← gets (fun m => rotation_weight (hparams m));
  let loss := tensor_add classification_loss (tensor_rmul w quat_geodesic_loss) in
  mret (loss, classification_loss, quat_geodesic_loss,
        pred_class, pred_quaternion, object_ids, unit_quaternion).

(** The registry the name [metrics] is bound to in [log_metrics]. *)
Definition select_metrics (prefix : string) : Split :=
  if String.eqb prefix "train" then Train
  else if String.eqb prefix "val" then Val
  else Test.

Definition log_metrics (prefix : string)
    (loss classification_loss quaternion_geodesic_loss
     pred_class pred_quaternion object_ids unit_quaternion : Tensor) : M unit :=
  let metrics := select_metrics prefix in
  let rotation_errors := get_rotation_error_in_degrees pred_quaternion unit_quaternion in
  (* Get predicted class indices *)
  let pred_indices := torch_argmax pred_class in
  (* Calculate accuracy for current task classes *)
  current ← gets current_task_classes;
  let current_task_acc := calculate_continual_accuracy pred_indices object_ids current in
  (* Calculate accuracy for all seen classes *)
  all_seen ← gets all_seen_classes;
  let all_seen_acc := calculate_continual_accuracy pred_indices object_ids all_seen in
  (* Move metrics to the correct device *)
  d ← gets device;
  _ ← modify (fun m => set_metrics metrics (Metric_to d <$> metrics_of metrics m) m);
  (* Update metrics with current batch values *)
  _ ← update_metric metrics (prefix +:+ "/loss") [loss];
  _ ← update_metric metrics (prefix +:+ "/classification_loss") [classification_loss];
  _ ← update_metric metrics (prefix +:+ "/quaternion_geodesic_loss") [quaternion_geodesic_loss];
  _ ← update_metric metrics (prefix +:+ "/class_acc") [pred_class; object_ids];
  _ ← update_metric metrics (prefix +:+ "/rotation_error") [rotation_errors];
  _ ← update_metric metrics (prefix +:+ "/current_task_class_acc") [current_task_acc];
  _ ← update_metric metrics (prefix +:+ "/all_seen_class_acc") [all_seen_acc];
  modify (add_log {| log_split := metrics; on_step := false; on_epoch := true;
                     prog_bar := true |}).

Definition training_step (batch : gmap string Tensor) (batch_idx : Z) : M Tensor :=
  out ← model_step batch;
  let '(loss, classification_loss, quaternion_geodesic_loss,
        pred_class, pred_quaternion, object_ids, unit_quaternion) := out in
  _ ← log_metrics "train" loss classification_loss quaternion_geodesic_loss
        pred_class pred_quaternion object_ids unit_quaternion;
  mret loss.

Definition validation_step (batch : gmap string Tensor) (batch_idx : Z) : M unit :=
  out ← model_step batch;
  let '(val_loss, classification_loss, quaternion_geodesic_loss,
        pred_class, pred_quaternion, object_ids, unit_quaternion) := out in
  log_metrics "val" val_loss classification_loss quaternion_geodesic_loss
    pred_class pred_quaternion object_ids unit_quaternion.

Definition test_step (batch : gmap string Tensor) (batch_idx : Z) : M unit :=
  out ← model_step batch;
  let '(loss, classification_loss, quaternion_geodesic_loss,
        pred_class, pred_quaternion, object_ids, unit_quaternion) := out in
  log_metrics "test" loss classification_loss quaternion_geodesic_loss
    pred_class pred_quaternion object_ids unit_quaternion.

(** [for metric in registry.values(): metric.reset()] *)
Definition reset_metrics (sp : Split) : M unit :=
  modify (fun m => set_metrics sp (Metric_reset <$> metrics_of sp m) m).

Definition on_train_epoch_end : M unit := reset_metrics Train.
Definition on_validation_epoch_end : M unit := reset_metrics Val.
Definition on_test_epoch_end : M unit := reset_metrics Test.

Definition predict_step (batch : gmap string Tensor) (batch_idx : Z)
  : M (gmap string Tensor) :=
  rgbd_image ← lift (Py.getitem batch "rgbd_image");
  object_ids ← lift (Py.getitem batch "object_ids");
  unit_quaternion ← lift (Py.getitem batch "unit_quaternion");
  out ← forward rgbd_image;
  let '(pred_class, pred_quaternion) := out in
  (* Convert logits to probabilities using softmax *)
  let class_probabilities := torch_softmax pred_class in
  mret (dict_of [ ("class_probabilities", class_probabilities);
                  ("predicted_quaternion", pred_quaternion);
                  ("object_ids", object_ids);
                  ("unit_quaternion", unit_quaternion) ]).

Definition setup (stage : option string) : M unit :=
  c ← gets (fun m => compile (hparams m));
  if c && bool_decide (stage = Some "fit")
  then modify (fun m => set_net (torch_compile (net m)) m)
  else mret tt.

(** The value [configure_optimizers] returns: a dictionary whose values are
    an optimizer, a scheduler, a string or a dictionary again. *)
#[local] Unset Elimination Schemes.
Inductive ConfigValue :=
| CfgOptimizer (o : Optimizer)
| CfgScheduler (s : Scheduler)
| CfgStr (s : string)
| CfgDict (d : list (string * ConfigValue)).
#[local] Set Elimination Schemes.

(** [params] stands for [self.trainer.model.parameters()]. *)
Set Warnings "-inexact-float".
Definition configure_optimizers (params : Params) : M (list (string * ConfigValue)) :=
  mk_optimizer ← gets (fun m => optimizer (hparams m));
  let optimizer := mk_optimizer params in
  mk_scheduler ← gets (fun m => scheduler (hparams m));
  match mk_scheduler with
  | Some mk_scheduler =>
      let total_steps := 1400 in
      warmup_steps ← lift (Py.int (0.05 * Py.float_of_int total_steps)%float);
      let scheduler := mk_scheduler optimizer warmup_steps total_steps in
      mret [ ("optimizer", CfgOptimizer optimizer);
             ("lr_scheduler",
              CfgDict [ ("scheduler", CfgScheduler scheduler);
                        ("interval", CfgStr "step") ]) ]
  | None => mret [ ("optimizer", CfgOptimizer optimizer) ]
  end.
Set Warnings "+inexact-float".

(** ** The states a module goes through

    The harness builds the module and then calls its methods in any order; it
    may also move the module, and with it the registered metrics, to another
    device. *)

Definition to_device (d : Device) : M unit :=
  modify (fun m =>
    set_device d
      (set_metrics Train (Metric_to d <$> train_metrics m)
        (set_metrics Val (Metric_to d <$> val_metrics m)
          (set_metrics Test (Metric_to d <$> test_metrics m) m)))).

Inductive Call :=
| CallForward (x : Tensor)
| CallModelStep (batch : gmap string Tensor)
| CallLogMetrics (prefix : string)
    (loss classification_loss quaternion_geodesic_loss
     pred_class pred_quaternion object_ids unit_quaternion : Tensor)
| CallTrainingStep (batch : gmap string Tensor) (batch_idx : Z)
| CallValidationStep (batch : gmap string Tensor) (batch_idx : Z)
| CallTestStep (batch : gmap string Tensor) (batch_idx : Z)
| CallOnTrainEpochEnd
| CallOnValidationEpochEnd
| CallOnTestEpochEnd
| CallPredictStep (batch : gmap string Tensor) (batch_idx : Z)
| CallSetup (stage : option string)
| CallConfigureOptimizers (params : Params)
| CallTo (d : Device).

(** The module after a call, whether the call returned or raised. *)
Definition after (c : Call) (m : LitModule) : LitModule :=
  match c with
  | CallForward x => (forward x m).2
  | CallModelStep batch => (model_step batch m).2
  | CallLogMetrics prefix l cl ql pc pq ids uq =>
      (log_metrics prefix l cl ql pc pq ids uq m).2
  | CallTrainingStep batch i => (training_step batch i m).2
  | CallValidationStep batch i => (validation_step batch i m).2
  | CallTestStep batch i => (test_step batch i m).2
  | CallOnTrainEpochEnd => (on_train_epoch_end m).2
  | CallOnValidationEpochEnd => (on_validation_epoch_end m).2
  | CallOnTestEpochEnd => (on_test_epoch_end m).2
  | CallPredictStep batch i => (predict_step batch i m).2
  | CallSetup stage => (setup stage m).2
  | CallConfigureOptimizers params => (configure_optimizers params m).2
  | CallTo d => (to_device d m).2
  end.

Inductive reachable (hp : HParams) : LitModule -> Prop :=
| reachable_init m : __init__ hp = Ok m -> reachable hp m
| reachable_call c m : reachable hp m -> reachable hp (after c m).

(** ** Vocabulary of the properties *)

Definition split_name (sp : Split) : string :=
  match sp with
  | Train => "train"
  | Val => "val"
  | Test => "test"
  end.

(** What kind of aggregator a metric object is: the part of a registry that
    no method changes. *)
Inductive Kind :=
| MeanKind
| AccuracyKind (num_classes : Z).

Definition kind_of (metric : Metric) : Kind :=
  match metric with
  | MeanMetric _ _ => MeanKind
  | Accuracy _ n _ => AccuracyKind n
  end.

(** The seven names of a split's registry with the kind bound to each. *)
Definition registry_kinds (prefix : string) : gmap string Kind :=
  dict_of
    [ (prefix +:+ "/loss", MeanKind);
      (prefix +:+ "/classification_loss", MeanKind);
      (prefix +:+ "/quaternion_geodesic_loss", MeanKind);
      (prefix +:+ "/class_acc", AccuracyKind 77);
      (prefix +:+ "/rotation_error", MeanKind);
      (prefix +:+ "/all_seen_class_acc", MeanKind);
      (prefix +:+ "/current_task_class_acc", MeanKind) ].

Definition metric_names (prefix : string) : gset string :=
  {[ prefix +:+ "/loss"; prefix +:+ "/classification_loss";
     prefix +:+ "/quaternion_geodesic_loss"; prefix +:+ "/class_acc";
     prefix +:+ "/rotation_error"; prefix +:+ "/all_seen_class_acc";
     prefix +:+ "/current_task_class_acc" ]}.

(** Every registry holds its seven metrics, each of its kind. *)
Definition well_formed (m : LitModule) : Prop :=
  forall sp, kind_of <$> metrics_of sp m = registry_kinds (split_name sp).

(** The task context of a module. *)
Definition task_context (m : LitModule) : Z * list Z * list Z :=
  (task_id m, current_task_classes m, all_seen_classes m).

(** Modelled from the spec: the contract of [compute_class_ranges]
    (src/utils/continual_learning_utils.py is not part of the sources at
    hand).  The classes introduced by the current task are among the classes
    seen up to and including it. *)
Definition class_ranges_contract : Prop :=
  forall n t a b current all_seen,
    compute_class_ranges n t = Ok (a, b, current, all_seen) ->
    current ⊆ all_seen.

(** The accumulators of the running mean stored under [key] in the registry
    of [sp]. *)
Definition running_mean (sp : Split) (key : string) (m : LitModule)
  : option MeanMetricState :=
  metrics_of sp m !! key ≫= mean_state.

(** [metric.update] as a function on metric objects, for the two call
    shapes of [log_metrics]. *)
Definition update_mean (value : Tensor) (metric : Metric) : Metric :=
  match metric with
  | MeanMetric d s => MeanMetric d (MeanMetric_update value s)
  | Accuracy _ _ _ => metric
  end.

Definition update_accuracy (preds target : Tensor) (metric : Metric) : Metric :=
  match metric with
  | Accuracy d n s => Accuracy d n (Accuracy_update n s preds target)
  | MeanMetric _ _ => metric
  end.


(** The registry [log_metrics] leaves behind when every lookup succeeds: the
    metrics moved to the module's device, then the seven updates. *)
Definition updated_registry (prefix : string)
    (loss classification_loss quaternion_geodesic_loss
     pred_class pred_quaternion object_ids unit_quaternion : Tensor)
    (m : LitModule) : gmap string Metric :=
  let pred_indices := torch_argmax pred_class in
  alter (update_mean
           (calculate_continual_accuracy pred_indices object_ids (all_seen_classes m)))
    (prefix +:+ "/all_seen_class_acc")
  (alter (update_mean
            (calculate_continual_accuracy pred_indices object_ids (current_task_classes m)))
    (prefix +:+ "/current_task_class_acc")
  (alter (update_mean (get_rotation_error_in_degrees pred_quaternion unit_quaternion))
    (prefix +:+ "/rotation_error")
  (alter (update_accuracy pred_class object_ids) (prefix +:+ "/class_acc")
  (alter (update_mean quaternion_geodesic_loss) (prefix +:+ "/quaternion_geodesic_loss")
  (alter (update_mean classification_loss) (prefix +:+ "/classification_loss")
  (alter (update_mean loss) (prefix +:+ "/loss")
    (Metric_to (device m) <$> metrics_of (select_metrics prefix) m))))))).

Definition epoch_log (sp : Split) : LogCall :=
  {| log_split := sp; on_step := false; on_epoch := true; prog_bar := true |}.

(** The registry of a split as [create_metrics] builds it. *)
Definition fresh_metrics (prefix : string) : gmap string Metric :=
  dict_of
    [ (prefix +:+ "/loss", MeanMetric "cpu" MeanMetric_default);
      (prefix +:+ "/classification_loss", MeanMetric "cpu" MeanMetric_default);
      (prefix +:+ "/quaternion_geodesic_loss", MeanMetric "cpu" MeanMetric_default);
      (prefix +:+ "/class_acc", Accuracy "cpu" 77 (Accuracy_default 77));
      (prefix +:+ "/rotation_error", MeanMetric "cpu" MeanMetric_default);
      (prefix +:+ "/all_seen_class_acc", MeanMetric "cpu" MeanMetric_default);
      (prefix +:+ "/current_task_class_acc", MeanMetric "cpu" MeanMetric_default) ].

(** The module once its three registries are bound, with the metric
    attributes [attrs], before the class ranges are resolved. *)
Definition constructed (hp : HParams) (attrs : gmap string string) : LitModule :=
  {| hparams := hp; net := hp_net hp; task_id := hp_task_id hp;
     train_metrics := fresh_metrics "train";
     val_metrics := fresh_metrics "val";
     test_metrics := fresh_metrics "test";
     current_task_classes := []; all_seen_classes := [];
     attributes := attrs; device := "cpu"; logged := [] |}.

(** The module after a successful [log_metrics] for the split [sp]. *)
Definition logged_state (sp : Split)
    (loss classification_loss quaternion_geodesic_loss
     pred_class pred_quaternion object_ids unit_quaternion : Tensor)
    (m : LitModule) : LitModule :=
  add_log (epoch_log sp)
    (set_metrics sp
       (updated_registry (split_name sp) loss classification_loss
          quaternion_geodesic_loss pred_class pred_quaternion object_ids
          unit_quaternion m) m).

(** The epoch-end hook of a split. *)
Definition on_epoch_end (sp : Split) : M unit :=
  match sp with
  | Train => on_train_epoch_end
  | Val => on_validation_epoch_end
  | Test => on_test_epoch_end
  end.

(** Everything of a module but the registry of [sp]. *)
Definition outside (sp : Split) (m : LitModule) :=
  (hparams m, net m, task_context m, attributes m, device m, logged m,
   match sp with Train => val_metrics m | _ => train_metrics m end,
   match sp with Test => val_metrics m | _ => test_metrics m end).

(** The module a successful construction returns. *)
Definition built (hp : HParams) : LitModule :=
  match __init__ hp with
  | Ok m => m
  | Raise _ => new_module hp
  end.

Definition construction_succeeds (hp : HParams) : Prop :=
  match __init__ hp with
  | Ok _ => True
  | Raise _ => False
  end.

(** What a method may not change: the hyperparameters, the task context and
    the kind of the metric stored under each name. *)
Definition unchanged_frame (m m' : LitModule) : Prop :=
  hparams m' = hparams m /\ task_context m' = task_context m /\
  forall sp, kind_of <$> metrics_of sp m' = kind_of <$> metrics_of sp m.

Definition keeps_frame {A} (c : M A) : Prop :=
  forall m, unchanged_frame m (c m).2.

End ContinualViT.

(** ** A small executable interpretation of the interfaces

    Tensors are scalars, float matrices or integer vectors over binary64
    numbers.  The exponential is the tenfold squared [(1 + x/1024)], the two
    losses and the rotation error are simple stand-ins with the signatures of
    the real ones, and the resolver hands out equally sized, consecutive class
    ranges.  The interpretation runs the module on concrete batches. *)

Module Demo.

Inductive tensor :=
| Scalar (x : float)
| Matrix (rows : list (list float))
| Labels (ids : list Z).

Definition values (t : tensor) : list float :=
  match t with
  | Scalar x => [x]
  | Matrix rows => concat rows
  | Labels ids => map Py.float_of_int ids
  end.

Definition ints (t : tensor) : list Z :=
  match t with
  | Labels ids => ids
  | _ => []
  end.

Definition add (a b : tensor) : tensor :=
  match a, b with
  | Scalar x, Scalar y => Scalar (x + y)
  | Scalar x, Matrix rows => Matrix (map (map (PrimFloat.add x)) rows)
  | Matrix rows, Scalar y => Matrix (map (map (fun x => x + y)%float) rows)
  | Matrix r1, Matrix r2 => Matrix (zip_with (zip_with PrimFloat.add) r1 r2)
  | _, _ => a
  end.

Definition rmul (w : float) (a : tensor) : tensor :=
  match a with
  | Scalar x => Scalar (w * x)
  | Matrix rows => Matrix (map (map (PrimFloat.mul w)) rows)
  | Labels ids => Labels ids
  end.

(** The first position of the largest entry of a row. *)
Fixpoint argmax_from (i best : Z) (top : float) (row : list float) : Z :=
  match row with
  | [] => best
  | x :: row' =>
      if (top <? x)%float then argmax_from (i + 1) i x row'
      else argmax_from (i + 1) best top row'
  end.

Definition argmax_row (row : list float) : Z :=
  match row with
  | [] => 0
  | x :: row' => argmax_from 1 0 x row'
  end.

Definition argmax (t : tensor) : tensor :=
  match t with
  | Matrix rows => Labels (map argmax_row rows)
  | _ => t
  end.

Definition exp_approx (x : float) : float :=
  let y := (1 + x / 1024)%float in
  Nat.iter 10 (fun z => z * z)%float y.

Definition softmax_row (row : list float) : list float :=
  let e := map exp_approx row in
  let total := foldl PrimFloat.add 0%float e in
  map (fun x => x / total)%float e.

Definition softmax (t : tensor) : tensor :=
  match t with
  | Matrix rows => Matrix (map softmax_row rows)
  | _ => t
  end.

Definition count_correct (preds target : tensor) : Z :=
  Z.of_nat (length (List.filter (fun pt => bool_decide (pt.1 = pt.2))
                      (zip (ints (argmax preds)) (ints target)))).

#[export] Instance torch : Torch := {|
  Tensor := tensor;
  Params := unit;
  Optimizer := string;
  Scheduler := string * Z * Z;
  tensor_add := add;
  tensor_rmul := rmul;
  torch_tensor := Scalar;
  torch_argmax := argmax;
  torch_softmax := softmax;
  tensor_values := values;
  tensor_ints := ints;
  torch_compile := fun f => f;
  AccuracyState := Z * Z;
  Accuracy_default := fun _ => (0, 0);
  Accuracy_update := fun _ s preds target =>
    (s.1 + count_correct preds target, s.2 + Z.of_nat (length (ints target)));
|}.

Definition mean (l : list float) : float :=
  (foldl PrimFloat.add 0 l / Py.float_of_int (Z.of_nat (length l)))%float.

(** Stand-in for the masked cross-entropy: the share of examples whose label
    is not the best-scoring class among the valid ones. *)
Definition best_valid (valid : list Z) (row : list float) : option Z :=
  let scored := List.filter (fun ix => bool_decide (ix.1 ∈ valid))
                  (zip (map Z.of_nat (seq 0 (length row))) row) in
  match scored with
  | [] => None
  | (i, x) :: rest =>
      Some (foldl (fun b ix => if (b.2 <? ix.2)%float then ix else b) (i, x) rest).1
  end.

Definition masked_loss (pred_class object_ids : tensor) (valid : list Z) : tensor :=
  match pred_class with
  | Matrix rows =>
      Scalar (mean (zip_with
        (fun row label => if bool_decide (best_valid valid row = Some label) then 0 else 1)%float
        rows (ints object_ids)))
  | _ => Scalar 0
  end.

Definition dot (p q : list float) : float :=
  foldl PrimFloat.add 0%float (zip_with PrimFloat.mul p q).

(** Stand-ins for the geodesic loss and the rotation error: one minus the
    absolute inner product, and the same scaled to [0, 180]. *)
Definition geodesic_loss (pred target : tensor) : tensor :=
  match pred, target with
  | Matrix p, Matrix q =>
      Scalar (mean (zip_with (fun a b => 1 - PrimFloat.abs (dot a b))%float p q))
  | _, _ => Scalar 0
  end.

Definition rotation_error (pred target : tensor) : tensor :=
  match pred, target with
  | Matrix p, Matrix q =>
      Matrix [zip_with (fun a b => 180 * (1 - PrimFloat.abs (dot a b)))%float p q]
  | _, _ => Matrix [[]]
  end.

(** Consecutive ranges of [n] classes per task (10 when [n] is not given);
    a negative task or a class count below 1 is rejected. *)
Definition class_ranges (n : option Z) (task : Z)
  : Result (unit * unit * list Z * list Z) :=
  let k := default 10 n in
  if (task <? 0) || (k <? 1) then Raise (ResolverError "invalid task")
  else Ok (tt, tt, seqZ (task * k) k, seqZ 0 ((task + 1) * k)).

#[export] Instance collaborators : Collaborators := {|
  RangeBounds := unit;
  masked_cross_entropy_loss := masked_loss;
  quaternion_geodesic_loss := geodesic_loss;
  get_rotation_error_in_degrees := rotation_error;
  compute_class_ranges := class_ranges;
|}.

(** A network with three output classes that scores the classes by the
    first three channels of each image and answers the identity rotation. *)
Definition toy_net (x : tensor) : tensor * tensor :=
  match x with
  | Matrix rows => (Matrix (map (take 3) rows), Matrix (map (fun _ => [1; 0; 0; 0]%float) rows))
  | _ => (Matrix [], Matrix [])
  end.

Definition toy_hparams (task : Z) (n : option Z) : HParams :=
  {| hp_net := toy_net;
     optimizer := fun _ => "adamw";
     scheduler := Some (fun o warmup total => (o, warmup, total));
     rotation_weight := 0.5;
     compile := false;
     hp_task_id := task;
     num_classes_for_task := n |}.

(** The module of task 1 with two classes per task: classes 2 and 3 are
    new, classes 0 to 3 have been seen. *)
Definition toy_module : LitModule := built (toy_hparams 1 (Some 2)).

Definition toy_batch : gmap string Tensor :=
  dict_of [ ("rgbd_image", Matrix [[0.5; 2; 1; 0]; [3; 0.25; 1; 0]]%float);
            ("object_ids", Labels [1; 0]);
            ("unit_quaternion", Matrix [[1; 0; 0; 0]; [0; 1; 0; 0]]%float);
            ("object_name", Labels [7; 8]) ].

(** An image of the new class 2, and the module after a training step on
    it. *)
Definition new_class_batch : gmap string Tensor :=
  dict_of [ ("rgbd_image", Matrix [[0; 1; 4; 0]]%float);
            ("object_ids", Labels [2]);
            ("unit_quaternion", Matrix [[1; 0; 0; 0]]%float) ].

Definition trained_module : LitModule :=
  after (CallTrainingStep new_class_batch 0) toy_module.

End Demo.

(** ** The exact interpretation of the logits

    Tensors are real matrices and [torch_softmax] is the normalized
    exponential of every row.  Only the network's outputs are read this way;
    the operations on binary64 numbers have no counterpart here and are left
    blank. *)

Module Ideal.

#[export] Instance torch : Torch := {|
  Tensor := list (list R);
  Params := unit;
  Optimizer := unit;
  Scheduler := unit;
  tensor_add := zip_with (zip_with Rplus);
  tensor_rmul := fun _ a => a;
  torch_tensor := fun _ => [];
  torch_argmax := fun a => a;
  torch_softmax := map RealSoftmax.softmax;
  tensor_values := fun _ => [];
  tensor_ints := fun _ => [];
  torch_compile := fun f => f;
  AccuracyState := unit;
  Accuracy_default := fun _ => tt;
  Accuracy_update := fun _ s _ _ => s;
|}.

Definition rows (t : Tensor) : list (list R) := t.

#[export] Instance real_view : RealView := {|
  tensor_rows := rows;
  softmax_rows := fun t => eq_refl;
|}.




End Ideal.

(** ** Vocabulary of the further properties *)

Section Vocabulary.
Context {torch : Torch} {collaborators : Collaborators}.



Definition metric_device (metric : Metric) : Device :=
  match metric with
  | MeanMetric d _ => d
  | Accuracy d _ _ => d
  end.

(** Everything of a module but the registry of [sp] and the log. *)
Definition beside (sp : Split) (m : LitModule) :=
  (hparams m, net m, task_context m, attributes m, device m,
   match sp with Train => val_metrics m | _ => train_metrics m end,
   match sp with Test => val_metrics m | _ => test_metrics m end).

(** A computation that keeps a property of the module, also when it raises. *)
Definition preserves {A} (P : LitModule -> Prop) (c : M A) : Prop :=
  forall m, P m -> P (c m).2.

(** A computation that adds the entry [entry] to the log when it returns and
    leaves the log alone when it raises. *)
Definition logs_on_return {A} (entry : LogCall) (c : M A) : Prop :=
  forall m,
    logged (c m).2
    = match (c m).1 with
      | Ok _ => logged m ++ [entry]
      | Raise _ => logged m
      end.


(** The empty metric of a kind on a device. *)
Definition empty_metric (d : Device) (k : Kind) : Metric :=
  match k with
  | MeanKind => MeanMetric d MeanMetric_default
  | AccuracyKind n => Accuracy d n (Accuracy_default n)
  end.



End Vocabulary.

(** * Properties *)

(** ** Names of metrics *)

Lemma length_append (s1 s2 : string) :
  String.length (s1 +:+ s2) = (String.length s1 + String.length s2)%nat.
Proof. induction s1 as [|c s1 IH]; simpl; [done|by rewrite IH]. Qed.

(** Two names that end in suffixes of one length agree part by part. *)
Lemma append_inj_suffix (p q a b : string) :
  String.length a = String.length b -> p +:+ a = q +:+ b -> p = q /\ a = b.
Proof.
  intros Hlen. revert q. induction p as [|c p IH]; intros [|c' q] H.
  - done.
  - apply (f_equal String.length) in H. rewrite !length_append in H.
    simpl in H. lia.
  - apply (f_equal String.length) in H. rewrite !length_append in H.
    simpl in H. lia.
  - change (String c (p +:+ a) = String c' (q +:+ b)) in H.
    injection H as -> H. by destruct (IH q H) as [-> ->].
Qed.

Section Properties.
Context {torch : Torch} {collaborators : Collaborators}.
Implicit Types (m : LitModule) (sp : Split) (r : gmap string Metric).
Implicit Types (prefix key : string) (d : Device).

#[local] Existing Instances M_ret M_bind.

(** ** Registries and their kinds *)

Lemma metrics_of_set_metrics sp r m : metrics_of sp (set_metrics sp r m) = r.
Proof. by destruct sp. Qed.

Lemma metrics_of_set_metrics_ne sp sp' r m :
  sp ≠ sp' -> metrics_of sp' (set_metrics sp r m) = metrics_of sp' m.
Proof. by destruct sp, sp'. Qed.

Lemma set_metrics_twice sp r r' m :
  set_metrics sp r' (set_metrics sp r m) = set_metrics sp r' m.
Proof. by destruct sp. Qed.

Lemma kind_of_to d metric : kind_of (Metric_to d metric) = kind_of metric.
Proof. by destruct metric. Qed.

Lemma kind_of_reset metric : kind_of (Metric_reset metric) = kind_of metric.
Proof. by destruct metric. Qed.

Lemma kind_of_update_mean v metric : kind_of (update_mean v metric) = kind_of metric.
Proof. by destruct metric. Qed.

Lemma kind_of_update_accuracy p t metric :
  kind_of (update_accuracy p t metric) = kind_of metric.
Proof. by destruct metric. Qed.

Lemma kind_of_update args metric metric' :
  Metric_update args metric = Ok metric' -> kind_of metric' = kind_of metric.
Proof.
  destruct metric as [d s|d n s], args as [|a [|b [|c args]]]; simpl;
    intros H; by inversion H.
Qed.

Lemma kinds_fmap (f : Metric -> Metric) r :
  (forall metric, kind_of (f metric) = kind_of metric) ->
  kind_of <$> (f <$> r) = kind_of <$> r.
Proof.
  intros Hf. rewrite <- map_fmap_compose. apply map_fmap_ext.
  intros k x _. apply Hf.
Qed.

Lemma kinds_insert key metric metric' r :
  r !! key = Some metric -> kind_of metric' = kind_of metric ->
  kind_of <$> <[key := metric']> r = kind_of <$> r.
Proof.
  intros Hk Hkind. rewrite fmap_insert. apply insert_id.
  by rewrite lookup_fmap, Hk, Hkind.
Qed.

Lemma kinds_alter (f : Metric -> Metric) key r :
  (forall metric, kind_of (f metric) = kind_of metric) ->
  kind_of <$> alter f key r = kind_of <$> r.
Proof.
  intros Hf. apply map_eq. intros k. rewrite !lookup_fmap.
  destruct (decide (key = k)) as [->|Hne].
  - rewrite lookup_alter_eq. destruct (r !! k); simpl; by rewrite ?Hf.
  - by rewrite lookup_alter_ne.
Qed.


Lemma lookup_no_kind r (kinds : gmap string Kind) key :
  kind_of <$> r = kinds -> kinds !! key = None -> r !! key = None.
Proof.
  intros <- Hk. rewrite lookup_fmap in Hk. by destruct (r !! key).
Qed.

(** ** Running the methods *)


Lemma update_metric_mean sp key v m :
  (kind_of <$> metrics_of sp m) !! key = Some MeanKind ->
  update_metric sp key [v] m
  = (Ok tt, set_metrics sp (alter (update_mean v) key (metrics_of sp m)) m).
Proof.
  intros Hk. rewrite lookup_fmap in Hk. unfold update_metric, Py.getitem.
  destruct (metrics_of sp m !! key) as [[dv s|dv n s]|] eqn:E; simpl in Hk; try done.
  simpl. do 2 f_equal. apply map_eq. intros k.
  destruct (decide (key = k)) as [->|Hne].
  - by rewrite lookup_insert_eq, lookup_alter_eq, E.
  - by rewrite lookup_insert_ne, lookup_alter_ne.
Qed.

Lemma update_metric_accuracy sp key p t n m :
  (kind_of <$> metrics_of sp m) !! key = Some (AccuracyKind n) ->
  update_metric sp key [p; t] m
  = (Ok tt, set_metrics sp (alter (update_accuracy p t) key (metrics_of sp m)) m).
Proof.
  intros Hk. rewrite lookup_fmap in Hk. unfold update_metric, Py.getitem.
  destruct (metrics_of sp m !! key) as [[dv s|dv n' s]|] eqn:E; simpl in Hk; try done.
  simpl. do 2 f_equal. apply map_eq. intros k.
  destruct (decide (key = k)) as [->|Hne].
  - by rewrite lookup_insert_eq, lookup_alter_eq, E.
  - by rewrite lookup_insert_ne, lookup_alter_ne.
Qed.

Lemma update_metric_missing sp key args m :
  metrics_of sp m !! key = None ->
  update_metric sp key args m = (Raise (KeyError key), m).
Proof. intros H. unfold update_metric, Py.getitem. by rewrite H. Qed.

Lemma registry_kinds_lookup sp :
  let p := split_name sp in
  registry_kinds p !! (p +:+ "/loss") = Some MeanKind /\
  registry_kinds p !! (p +:+ "/classification_loss") = Some MeanKind /\
  registry_kinds p !! (p +:+ "/quaternion_geodesic_loss") = Some MeanKind /\
  registry_kinds p !! (p +:+ "/class_acc") = Some (AccuracyKind 77) /\
  registry_kinds p !! (p +:+ "/rotation_error") = Some MeanKind /\
  registry_kinds p !! (p +:+ "/current_task_class_acc") = Some MeanKind /\
  registry_kinds p !! (p +:+ "/all_seen_class_acc") = Some MeanKind.
Proof. destruct sp; vm_compute; repeat split. Qed.

Lemma select_metrics_name sp : select_metrics (split_name sp) = sp.
Proof. by destruct sp. Qed.

Ltac kinds_step :=
  repeat first
    [ rewrite kinds_alter by (intros; first [apply kind_of_update_mean | apply kind_of_update_accuracy])
    | rewrite kinds_fmap by (intros; first [apply kind_of_to | apply kind_of_reset]) ].

Lemma log_metrics_run sp l cl ql pc pq ids uq m :
  well_formed m ->
  log_metrics (split_name sp) l cl ql pc pq ids uq m
  = (Ok tt, logged_state sp l cl ql pc pq ids uq m).
Proof.
  intros Hwf. pose proof (Hwf sp) as Hsp. unfold logged_state.
  destruct (registry_kinds_lookup sp) as (K1 & K2 & K3 & K4 & K5 & K6 & K7).
  cbv zeta in *.
  unfold log_metrics, updated_registry. rewrite select_metrics_name.
  unfold gets, modify.
  cbv [mbind M_bind].
  repeat
    (first [rewrite update_metric_mean | rewrite (update_metric_accuracy _ _ _ _ 77)];
     [rewrite ?metrics_of_set_metrics, ?set_metrics_twice
     |rewrite ?metrics_of_set_metrics; kinds_step; by rewrite Hsp]).
  reflexivity.
Qed.

(** ** What no method changes *)

Lemma unchanged_frame_refl m : unchanged_frame m m.
Proof. by repeat split. Qed.

Lemma unchanged_frame_trans m1 m2 m3 :
  unchanged_frame m1 m2 -> unchanged_frame m2 m3 -> unchanged_frame m1 m3.
Proof.
  intros (H1 & H2 & H3) (G1 & G2 & G3). repeat split.
  - congruence.
  - congruence.
  - intros sp. by rewrite G3, H3.
Qed.

Lemma keeps_frame_ret {A} (a : A) : keeps_frame (mret a).
Proof. intros m. apply unchanged_frame_refl. Qed.

Lemma keeps_frame_gets {A} (f : LitModule -> A) : keeps_frame (gets f).
Proof. intros m. apply unchanged_frame_refl. Qed.

Lemma keeps_frame_lift {A} (x : Result A) : keeps_frame (lift x).
Proof. intros m. apply unchanged_frame_refl. Qed.

Lemma keeps_frame_bind {A B} (c : M A) (k : A -> M B) :
  keeps_frame c -> (forall a, keeps_frame (k a)) -> keeps_frame (c ≫= k).
Proof.
  intros Hc Hk m. specialize (Hc m). unfold mbind, M_bind.
  destruct (c m) as [[a|e] m']; simpl in *; [|done].
  eapply unchanged_frame_trans; [exact Hc|apply Hk].
Qed.

Lemma keeps_frame_set_metrics sp (f : Metric -> Metric) :
  (forall metric, kind_of (f metric) = kind_of metric) ->
  keeps_frame (modify (fun m => set_metrics sp (f <$> metrics_of sp m) m)).
Proof.
  intros Hf m. repeat split. intros sp'. simpl.
  destruct (decide (sp = sp')) as [<-|Hne].
  - rewrite metrics_of_set_metrics. by apply kinds_fmap.
  - by rewrite metrics_of_set_metrics_ne.
Qed.

Lemma keeps_frame_update_metric sp key args : keeps_frame (update_metric sp key args).
Proof.
  intros m. unfold update_metric, Py.getitem.
  destruct (metrics_of sp m !! key) as [metric|] eqn:E; [|apply unchanged_frame_refl].
  destruct (Metric_update args metric) as [metric'|e] eqn:U; [|apply unchanged_frame_refl].
  repeat split. intros sp'. simpl.
  destruct (decide (sp = sp')) as [<-|Hne].
  - rewrite metrics_of_set_metrics. eapply kinds_insert; [done|]. by eapply kind_of_update.
  - by rewrite metrics_of_set_metrics_ne.
Qed.

Lemma keeps_frame_add_log c : keeps_frame (modify (add_log c)).
Proof. intros m. by repeat split. Qed.

Ltac keeps_frame :=
  repeat first
    [ apply keeps_frame_ret
    | apply keeps_frame_gets
    | apply keeps_frame_lift
    | apply keeps_frame_update_metric
    | apply keeps_frame_add_log
    | apply keeps_frame_set_metrics; intros; first [apply kind_of_to | apply kind_of_reset]
    | apply keeps_frame_bind; [|intros ?]
    | match goal with
      | |- keeps_frame (let '(_, _) := ?x in _) => destruct x
      | |- keeps_frame (match ?x with _ => _ end) => destruct x
      | |- keeps_frame (if ?b then _ else _) => destruct b
      end ].

Lemma keeps_frame_forward x : keeps_frame (forward x).
Proof. unfold forward. keeps_frame. Qed.

Lemma keeps_frame_model_step batch : keeps_frame (model_step batch).
Proof. unfold model_step. pose proof keeps_frame_forward. keeps_frame; auto. Qed.

Lemma keeps_frame_log_metrics prefix l cl ql pc pq ids uq :
  keeps_frame (log_metrics prefix l cl ql pc pq ids uq).
Proof. unfold log_metrics. keeps_frame. Qed.

Lemma keeps_frame_training_step batch i : keeps_frame (training_step batch i).
Proof.
  unfold training_step.
  apply keeps_frame_bind; [apply keeps_frame_model_step|].
  intros [[[[[[? ?] ?] ?] ?] ?] ?].
  apply keeps_frame_bind; [apply keeps_frame_log_metrics|intros; apply keeps_frame_ret].
Qed.

Lemma keeps_frame_validation_step batch i : keeps_frame (validation_step batch i).
Proof.
  unfold validation_step.
  apply keeps_frame_bind; [apply keeps_frame_model_step|].
  intros [[[[[[? ?] ?] ?] ?] ?] ?]. apply keeps_frame_log_metrics.
Qed.

Lemma keeps_frame_test_step batch i : keeps_frame (test_step batch i).
Proof.
  unfold test_step.
  apply keeps_frame_bind; [apply keeps_frame_model_step|].
  intros [[[[[[? ?] ?] ?] ?] ?] ?]. apply keeps_frame_log_metrics.
Qed.

Lemma keeps_frame_reset sp : keeps_frame (reset_metrics sp).
Proof. unfold reset_metrics. keeps_frame. Qed.

Lemma keeps_frame_predict_step batch i : keeps_frame (predict_step batch i).
Proof. unfold predict_step. pose proof keeps_frame_forward. keeps_frame; auto. Qed.

Lemma keeps_frame_setup stage : keeps_frame (setup stage).
Proof.
  unfold setup. apply keeps_frame_bind; [apply keeps_frame_gets|].
  intros c. destruct (c && _); [|apply keeps_frame_ret].
  intros m. by repeat split.
Qed.

Lemma keeps_frame_configure_optimizers params : keeps_frame (configure_optimizers params).
Proof. unfold configure_optimizers. keeps_frame. Qed.

Lemma keeps_frame_to_device d : keeps_frame (to_device d).
Proof.
  intros m. repeat split. intros sp. simpl.
  destruct sp; simpl; apply kinds_fmap, kind_of_to.
Qed.

Lemma after_unchanged_frame c m : unchanged_frame m (after c m).
Proof.
  destruct c; cbn [after].
  - apply keeps_frame_forward.
  - apply keeps_frame_model_step.
  - apply keeps_frame_log_metrics.
  - apply keeps_frame_training_step.
  - apply keeps_frame_validation_step.
  - apply keeps_frame_test_step.
  - apply (keeps_frame_reset Train).
  - apply (keeps_frame_reset Val).
  - apply (keeps_frame_reset Test).
  - apply keeps_frame_predict_step.
  - apply keeps_frame_setup.
  - apply keeps_frame_configure_optimizers.
  - apply keeps_frame_to_device.
Qed.

(** ** Construction and the reachable states *)

Lemma init_body_run hp :
  exists attrs,
    init_body (new_module hp)
    = match compute_class_ranges (num_classes_for_task hp) (hp_task_id hp) with
      | Ok (_, _, current, all_seen) =>
          (Ok tt, set_class_ranges current all_seen (constructed hp attrs))
      | Raise e => (Raise e, constructed hp attrs)
      end.
Proof.
  eexists. unfold init_body.
  cbv [mbind M_bind mret M_ret gets modify lift create_metrics].
  cbn [hparams new_module set_attributes set_metrics].
  destruct (compute_class_ranges _ _) as [[[[a b] current] all_seen]|e].
  all: reflexivity.
Qed.

Lemma init_inv hp m :
  __init__ hp = Ok m ->
  exists attrs a b,
    compute_class_ranges (num_classes_for_task hp) (hp_task_id hp)
      = Ok (a, b, current_task_classes m, all_seen_classes m) /\
    m = set_class_ranges (current_task_classes m) (all_seen_classes m)
          (constructed hp attrs).
Proof.
  unfold __init__. destruct (init_body_run hp) as [attrs ->].
  destruct (compute_class_ranges _ _) as [[[[a b] current] all_seen]|e]; [|done].
  intros Hm. exists attrs.
  assert (m = set_class_ranges current all_seen (constructed hp attrs)) as -> by congruence.
  by exists a, b.
Qed.

Lemma fresh_metrics_kinds prefix :
  kind_of <$> fresh_metrics prefix = registry_kinds prefix.
Proof.
  unfold fresh_metrics, registry_kinds, dict_of. cbn [foldl fst snd].
  by rewrite !fmap_insert, fmap_empty.
Qed.

Lemma init_well_formed hp m : __init__ hp = Ok m -> well_formed m.
Proof.
  intros (attrs & a & b & _ & ->)%init_inv sp.
  destruct sp; apply fresh_metrics_kinds.
Qed.

Lemma reachable_frame hp m :
  reachable hp m -> exists m0, __init__ hp = Ok m0 /\ unchanged_frame m0 m.
Proof.
  induction 1 as [m Hm|c m _ (m0 & Hm0 & IH)].
  - exists m. split; [done|apply unchanged_frame_refl].
  - exists m0. split; [done|].
    eapply unchanged_frame_trans; [exact IH|apply after_unchanged_frame].
Qed.

Lemma reachable_well_formed hp m : reachable hp m -> well_formed m.
Proof.
  intros (m0 & Hm0 & _ & _ & Hk)%reachable_frame sp.
  rewrite Hk. by apply (init_well_formed hp).
Qed.

Lemma reachable_hparams hp m : reachable hp m -> hparams m = hp.
Proof.
  intros (m0 & Hm0 & Hhp & _)%reachable_frame. rewrite Hhp.
  by destruct (init_inv _ _ Hm0) as (attrs & a & b & _ & ->).
Qed.

(** Claim C4.  In every state reachable from a construction with [hp], no
    call (of [forward], [model_step], [log_metrics], the three steps, the
    three epoch-end hooks, [predict_step], [setup], [configure_optimizers], or
    a move to a device) changes [task_id], [current_task_classes] or
    [all_seen_classes]: they are the task id the constructor was given and
    the two sets the resolver returned for it.  When the resolver keeps its
    contract, the current task's classes are among the seen ones. *)
Theorem task_context_frozen hp m :
  class_ranges_contract -> reachable hp m ->
  (forall c, task_context (after c m) = task_context m) /\
  (forall m0, __init__ hp = Ok m0 -> task_context m = task_context m0) /\
  task_id m = hp_task_id hp /\
  (exists a b,
     compute_class_ranges (num_classes_for_task hp) (hp_task_id hp)
       = Ok (a, b, current_task_classes m, all_seen_classes m)) /\
  current_task_classes m ⊆ all_seen_classes m.
Proof.
  intros Hcontract (m0 & Hm0 & _ & Hctx & _)%reachable_frame.
  destruct (init_inv _ _ Hm0) as (attrs & a & b & Hranges & Em0).
  assert (task_id m = task_id m0 /\ current_task_classes m = current_task_classes m0
          /\ all_seen_classes m = all_seen_classes m0) as (Ht & Hc & Hs).
  { unfold task_context in Hctx. by inversion Hctx. }
  split; [intros c; apply after_unchanged_frame|].
  split; [intros m1 Hm1; congruence|].
  rewrite Ht, Hc, Hs.
  split; [by rewrite Em0|].
  split; [by exists a, b|].
  by eapply Hcontract.
Qed.

Lemma model_step_run m batch rgbd_image object_ids unit_quaternion :
  batch !! "rgbd_image" = Some rgbd_image ->
  batch !! "object_ids" = Some object_ids ->
  batch !! "unit_quaternion" = Some unit_quaternion ->
  let pred_class := (net m rgbd_image).1 in
  let pred_quaternion := (net m rgbd_image).2 in
  let classification_loss :=
    masked_cross_entropy_loss pred_class object_ids (all_seen_classes m) in
  let rotation_loss := quaternion_geodesic_loss pred_quaternion unit_quaternion in
  model_step batch m
  = (Ok (tensor_add classification_loss
           (tensor_rmul (rotation_weight (hparams m)) rotation_loss),
         classification_loss, rotation_loss,
         pred_class, pred_quaternion, object_ids, unit_quaternion),
     m).
Proof.
  intros H1 H2 H3. cbv zeta.
  unfold model_step, forward, lift, gets, Py.getitem. rewrite H1, H2, H3.
  cbv [mbind M_bind mret M_ret]. by destruct (net m rgbd_image) as [pc pq].
Qed.

Lemma built_reachable hp : construction_succeeds hp -> reachable hp (built hp).
Proof.
  unfold construction_succeeds, built. intros Hok.
  destruct (__init__ hp) as [m|e] eqn:E; [|done]. by apply reachable_init.
Qed.

(** Claim C1.  For every batch that carries the three tensors, [model_step]
    on a module reachable from a construction with [hp] computes the
    classification loss as the masked cross-entropy of the network's logits
    and the labels with [all_seen_classes m] as the valid classes (for any
    loss function plugged in; neither the current task's classes nor the full
    range is passed), and returns as combined loss the classification loss
    plus the rotation loss scaled by [rotation_weight hp], the weight the
    constructor was given, together with the two components, the two
    predictions and the two ground-truth tensors. *)
Theorem model_step_loss hp m batch rgbd_image object_ids unit_quaternion :
  reachable hp m ->
  batch !! "rgbd_image" = Some rgbd_image ->
  batch !! "object_ids" = Some object_ids ->
  batch !! "unit_quaternion" = Some unit_quaternion ->
  let pred_class := (net m rgbd_image).1 in
  let pred_quaternion := (net m rgbd_image).2 in
  let classification_loss :=
    masked_cross_entropy_loss pred_class object_ids (all_seen_classes m) in
  let rotation_loss := quaternion_geodesic_loss pred_quaternion unit_quaternion in
  model_step batch m
  = (Ok (tensor_add classification_loss (tensor_rmul (rotation_weight hp) rotation_loss),
         classification_loss, rotation_loss,
         pred_class, pred_quaternion, object_ids, unit_quaternion),
     m).
Proof.
  intros Hm H1 H2 H3. rewrite <- (reachable_hparams hp m Hm).
  by apply model_step_run.
Qed.

(** ** Epoch ends *)

Lemma is_empty_reset metric : is_empty (Metric_reset metric).
Proof. by destruct metric. Qed.

Lemma Metric_reset_idemp metric : Metric_reset (Metric_reset metric) = Metric_reset metric.
Proof. by destruct metric. Qed.

Lemma on_epoch_end_run sp m :
  on_epoch_end sp m = (Ok tt, set_metrics sp (Metric_reset <$> metrics_of sp m) m).
Proof. by destruct sp. Qed.

Lemma reset_registry_empty r key metric :
  (Metric_reset <$> r) !! key = Some metric -> is_empty metric.
Proof.
  rewrite lookup_fmap. destruct (r !! key) as [x|]; simpl; [|done].
  intros [= <-]. apply is_empty_reset.
Qed.

(** Claim C8.  The epoch-end hook of a split returns normally, keeps the
    names of that split's registry, leaves every metric in it empty, and
    changes nothing else: the other two registries, the hyperparameters, the
    network, the task context, the bound attributes, the device and the log
    are as before.  [on_epoch_end Train] is [on_train_epoch_end], and so on. *)
Theorem epoch_end_resets_own_registry sp m :
  let m' := (on_epoch_end sp m).2 in
  (on_epoch_end sp m).1 = Ok tt /\
  dom (metrics_of sp m') = dom (metrics_of sp m) /\
  (forall key metric, metrics_of sp m' !! key = Some metric -> is_empty metric) /\
  outside sp m' = outside sp m.
Proof.
  cbv zeta. rewrite on_epoch_end_run. cbn [fst snd].
  rewrite metrics_of_set_metrics. repeat split.
  - apply dom_fmap_L.
  - apply reset_registry_empty.
  - by destruct sp.
Qed.

(** Claim C9.  Calling a split's epoch-end hook twice in a row gives the same
    result and leaves the same module as calling it once, for every state of
    the registries. *)
Theorem epoch_end_idempotent sp m :
  on_epoch_end sp (on_epoch_end sp m).2 = on_epoch_end sp m.
Proof.
  rewrite !on_epoch_end_run. cbn [fst snd].
  rewrite metrics_of_set_metrics, set_metrics_twice. do 2 f_equal.
  rewrite <- map_fmap_compose. apply map_fmap_ext.
  intros k x _. apply Metric_reset_idemp.
Qed.

(** ** Optimizer and scheduler *)

Set Warnings "-inexact-float".
Lemma warmup_steps_70 : Py.int (0.05 * Py.float_of_int 1400)%float = Ok 70.
Proof. vm_compute. reflexivity. Qed.
Set Warnings "+inexact-float".

(** Claim C5.  [configure_optimizers] builds the optimizer from the given
    parameters.  With a scheduler factory it calls the factory with the
    optimizer, 70 warmup steps and 1400 training steps (the integer part of
    0.05 * 1400 in binary64 arithmetic; nothing of the run enters), and
    returns the optimizer and the scheduler with interval "step"; without
    one it returns the optimizer alone.  The module is not changed. *)
Theorem configure_optimizers_fixed_schedule params m :
  let opt := optimizer (hparams m) params in
  configure_optimizers params m
  = (Ok match scheduler (hparams m) with
        | Some mk_scheduler =>
            [ ("optimizer", CfgOptimizer opt);
              ("lr_scheduler",
               CfgDict [ ("scheduler", CfgScheduler (mk_scheduler opt 70 1400));
                         ("interval", CfgStr "step") ]) ]
        | None => [ ("optimizer", CfgOptimizer opt) ]
        end,
     m).
Proof.
  cbv zeta. unfold configure_optimizers, gets, lift.
  cbv [mbind M_bind mret M_ret].
  destruct (scheduler (hparams m)) as [mk|]; [|done].
  by rewrite warmup_steps_70.
Qed.

(** ** Steps *)


(** ** The registries and what a step feeds them *)

#[local] Set Warnings "-clear-no-such-hyp".
Lemma registry_kinds_dom prefix : dom (registry_kinds prefix) = metric_names prefix.
Proof.
  unfold registry_kinds, metric_names, dict_of. cbn [foldl fst snd].
  rewrite !dom_insert_L, dom_empty_L. set_solver.
Qed.
#[local] Set Warnings "+clear-no-such-hyp".






Lemma metrics_of_logged_state sp l cl ql pc pq ids uq m :
  metrics_of sp (logged_state sp l cl ql pc pq ids uq m)
  = updated_registry (split_name sp) l cl ql pc pq ids uq m.
Proof. unfold logged_state. by destruct sp. Qed.


(** ** Restricted accuracy with nothing to evaluate *)





(** ** Split names that are not split names *)

Lemma select_metrics_other prefix :
  prefix ≠ "train" -> prefix ≠ "val" -> select_metrics prefix = Test.
Proof.
  intros H1 H2. unfold select_metrics.
  destruct (String.eqb_spec prefix "train"); [done|].
  by destruct (String.eqb_spec prefix "val").
Qed.

Lemma unknown_loss_name prefix :
  prefix ≠ "test" -> registry_kinds "test" !! (prefix +:+ "/loss") = None.
Proof.
  intros Hne. apply not_elem_of_dom. rewrite registry_kinds_dom.
  unfold metric_names. set_unfold.
  intros [[[[[[H|H]|H]|H]|H]|H]|H].
  - by apply (append_inj_suffix prefix "test" "/loss" "/loss") in H as [? _].
  - by apply (append_inj_suffix prefix "test/classification" "/loss" "_loss") in H as [_ ?].
  - by apply (append_inj_suffix prefix "test/quaternion_geodesic" "/loss" "_loss") in H as [_ ?].
  - by apply (append_inj_suffix prefix "test/clas" "/loss" "s_acc") in H as [_ ?].
  - by apply (append_inj_suffix prefix "test/rotation_" "/loss" "error") in H as [_ ?].
  - by apply (append_inj_suffix prefix "test/all_seen_clas" "/loss" "s_acc") in H as [_ ?].
  - by apply (append_inj_suffix prefix "test/current_task_clas" "/loss" "s_acc") in H as [_ ?].
Qed.

(** Claim C10, as amended.  For a prefix other than "train" and "val",
    [log_metrics] selects the test registry.  With the prefix "test" it
    updates that registry.  With any other prefix it raises [KeyError] for
    the name "<prefix>/loss": the metrics of the test registry have been
    moved to the module's device, none has been updated, nothing is logged. *)
Theorem other_prefix_selects_test hp m prefix l cl ql pc pq ids uq :
  reachable hp m ->
  prefix ≠ "train" -> prefix ≠ "val" ->
  select_metrics prefix = Test /\
  (prefix = "test" ->
   log_metrics prefix l cl ql pc pq ids uq m
   = (Ok tt, logged_state Test l cl ql pc pq ids uq m)) /\
  (prefix ≠ "test" ->
   log_metrics prefix l cl ql pc pq ids uq m
   = (Raise (KeyError (prefix +:+ "/loss")),
      set_metrics Test (Metric_to (device m) <$> test_metrics m) m)).
Proof.
  intros Hm H1 H2. pose proof (reachable_well_formed hp m Hm) as Hwf.
  split; [by apply select_metrics_other|].
  split.
  - intros ->. by apply (log_metrics_run Test).
  - intros H3. unfold log_metrics. rewrite select_metrics_other by done.
    unfold gets, modify. cbv [mbind M_bind]. cbn [metrics_of].
    rewrite update_metric_missing; [done|].
    rewrite metrics_of_set_metrics, lookup_fmap.
    cbn [metrics_of]. rewrite (lookup_no_kind _ _ _ (Hwf Test)); [done|].
    by apply unknown_loss_name.
Qed.

End Properties.

(** ** The normalized exponential *)

Section Softmax.
Import RealSoftmax.
Local Open Scope R_scope.





End Softmax.

Section Predict.
Context {torch : Torch} {real_view : RealView}.
Implicit Types (m : LitModule).
#[local] Existing Instances M_ret M_bind.


End Predict.

(** * The properties on concrete modules *)

Section OnDemo.
#[local] Existing Instances Demo.torch Demo.collaborators.


Lemma demo_class_ranges_contract : class_ranges_contract.
Proof.
  intros n t a b current all_seen. simpl. unfold Demo.class_ranges.
  destruct (_ || _) eqn:E; [done|]. intros [= _ _ <- <-].
  apply orb_false_elim in E as [Ht Hk].
  apply Z.ltb_ge in Ht, Hk.
  intros x. rewrite !elem_of_seqZ. nia.
Qed.

Lemma toy_module_reachable :
  reachable (Demo.toy_hparams 1 (Some 2)) Demo.toy_module.
Proof. apply built_reachable. exact I. Qed.

Lemma trained_module_reachable :
  reachable (Demo.toy_hparams 1 (Some 2)) Demo.trained_module.
Proof. apply reachable_call, toy_module_reachable. Qed.

Example toy_module_classes :
  current_task_classes Demo.toy_module = [2; 3] /\
  all_seen_classes Demo.toy_module = [0; 1; 2; 3].
Proof. split; reflexivity. Qed.

(** The two-task scenario of the restricted accuracy: an old label 5 and a
    new label 12, both predicted correctly, give 1 over the seen classes and
    1 over the new classes, there from one evaluable example; with no
    evaluable example the quotient is a NaN. *)
Example accuracy_of_two_tasks :
  calculate_continual_accuracy (Demo.Labels [5; 12]) (Demo.Labels [5; 12]) (seqZ 0 15)
    = Demo.Scalar 1 /\
  calculate_continual_accuracy (Demo.Labels [5; 12]) (Demo.Labels [5; 12]) (seqZ 10 5)
    = Demo.Scalar 1 /\
  calculate_continual_accuracy (Demo.Labels [5; 11]) (Demo.Labels [5; 12]) (seqZ 10 5)
    = Demo.Scalar 0 /\
  map PrimFloat.is_nan
    (tensor_values
       (calculate_continual_accuracy (Demo.Labels [5]) (Demo.Labels [5]) (seqZ 10 5)))
    = [true].
Proof. repeat split; vm_compute; reflexivity. Qed.

Example trained_module_current_task_acc :
  running_mean Train "train/current_task_class_acc" Demo.trained_module
  = Some {| mean_value := 1; weight := 1 |}.
Proof. vm_compute. reflexivity. Qed.

Example warmup_is_70 :
  (configure_optimizers tt Demo.toy_module).1
  = Ok [ ("optimizer", CfgOptimizer "adamw");
         ("lr_scheduler",
          CfgDict [ ("scheduler", CfgScheduler ("adamw", 70, 1400));
                    ("interval", CfgStr "step") ]) ].
Proof. vm_compute. reflexivity. Qed.

(** C1 on the toy module: the loss 0.25 is 0 + 0.5 * 0.5. *)
Lemma model_step_loss_witness :
  (model_step Demo.toy_batch Demo.toy_module).1
  = Ok (Demo.Scalar 0.25, Demo.Scalar 0, Demo.Scalar 0.5,
        Demo.Matrix [[0.5; 2; 1]; [3; 0.25; 1]]%float,
        Demo.Matrix [[1; 0; 0; 0]; [1; 0; 0; 0]]%float,
        Demo.Labels [1; 0],
        Demo.Matrix [[1; 0; 0; 0]; [0; 1; 0; 0]]%float).
Proof.
  rewrite (model_step_loss (Demo.toy_hparams 1 (Some 2)) Demo.toy_module Demo.toy_batch
             (Demo.Matrix [[0.5; 2; 1; 0]; [3; 0.25; 1; 0]]%float)
             (Demo.Labels [1; 0])
             (Demo.Matrix [[1; 0; 0; 0]; [0; 1; 0; 0]]%float)).
  - reflexivity.
  - apply built_reachable. exact I.
  - reflexivity.
  - reflexivity.
  - reflexivity.
Defined.



(** C4 on the module after a training step. *)
Lemma task_context_frozen_witness :
  let m := Demo.trained_module in
  task_context (after CallOnTrainEpochEnd m) = task_context m /\
  current_task_classes m ⊆ all_seen_classes m.
Proof.
  cbv zeta.
  destruct (task_context_frozen (Demo.toy_hparams 1 (Some 2)) Demo.trained_module)
    as (Hcall & _ & _ & _ & Hsub).
  - exact demo_class_ranges_contract.
  - apply reachable_call, built_reachable. exact I.
  - split; [apply Hcall|exact Hsub].
Defined.


Example training_step_returns_loss :
  (training_step Demo.toy_batch 3 Demo.toy_module).1 = Ok (Demo.Scalar 0.25) /\
  (validation_step Demo.toy_batch 3 Demo.toy_module).1 = Ok tt /\
  (test_step Demo.toy_batch 3 Demo.toy_module).1 = Ok tt.
Proof. repeat split; vm_compute; reflexivity. Qed.

(** C10, as amended, on a misspelled split name. *)
Lemma other_prefix_selects_test_witness :
  log_metrics "tset" (Demo.Scalar 0.25) (Demo.Scalar 0) (Demo.Scalar 0.5)
    (Demo.Matrix [[0.5; 2; 1]; [3; 0.25; 1]]%float)
    (Demo.Matrix [[1; 0; 0; 0]; [1; 0; 0; 0]]%float)
    (Demo.Labels [1; 0])
    (Demo.Matrix [[1; 0; 0; 0]; [0; 1; 0; 0]]%float) Demo.trained_module
  = (Raise (KeyError "tset/loss"),
     set_metrics Test
       (Metric_to (device Demo.trained_module) <$> test_metrics Demo.trained_module)
       Demo.trained_module).
Proof.
  refine (proj2 (proj2 (other_prefix_selects_test (Demo.toy_hparams 1 (Some 2))
            Demo.trained_module "tset" _ _ _ _ _ _ _ trained_module_reachable _ _)) _);
    done.
Defined.

(** Against claim C10 as it was stated: called with the misspelled split name
    "tset", [log_metrics] does not return but raises [KeyError], and the test
    registry holds what it held; nothing is logged. *)
Lemma misspelled_prefix_is_rejected :
  let call :=
    log_metrics "tset" (Demo.Scalar 0.25) (Demo.Scalar 0) (Demo.Scalar 0.5)
      (Demo.Matrix [[0.5; 2; 1]; [3; 0.25; 1]]%float)
      (Demo.Matrix [[1; 0; 0; 0]; [1; 0; 0; 0]]%float)
      (Demo.Labels [1; 0])
      (Demo.Matrix [[1; 0; 0; 0]; [0; 1; 0; 0]]%float) Demo.trained_module in
  call.1 = Raise (KeyError "tset/loss") /\
  call.1 ≠ Ok tt /\
  map_to_list (test_metrics call.2) = map_to_list (test_metrics Demo.trained_module) /\
  logged call.2 = logged Demo.trained_module.
Proof.
  cbv zeta. split; [vm_compute; reflexivity|].
  split; [vm_compute; discriminate|].
  split; vm_compute; reflexivity.
Qed.

End OnDemo.

Section OnIdeal.
#[local] Existing Instances Ideal.torch Ideal.real_view.


End OnIdeal.

(** * Further properties of the methods *)

Section Further.
Context {torch : Torch} {collaborators : Collaborators}.
Implicit Types (m : LitModule) (sp : Split) (r : gmap string Metric).
Implicit Types (prefix key : string) (d : Device) (batch : gmap string Tensor).

#[local] Existing Instances M_ret M_bind.

(** ** Properties kept along a computation *)

Lemma preserves_ret {A} P (a : A) : preserves P (mret a).
Proof. by intros m. Qed.

Lemma preserves_gets {A} P (f : LitModule -> A) : preserves P (gets f).
Proof. by intros m. Qed.

Lemma preserves_lift {A} P (x : Result A) : preserves P (lift x).
Proof. by intros m. Qed.

Lemma preserves_modify P (f : LitModule -> LitModule) :
  (forall m, P m -> P (f m)) -> preserves P (modify f).
Proof. intros Hf m. apply Hf. Qed.

Lemma preserves_bind {A B} P (c : M A) (k : A -> M B) :
  preserves P c -> (forall a, preserves P (k a)) -> preserves P (c ≫= k).
Proof.
  intros Hc Hk m Hm. specialize (Hc m Hm). unfold mbind, M_bind.
  destruct (c m) as [[a|e] m']; simpl in *; [by apply Hk|done].
Qed.

Lemma preserves_update_metric P sp key args :
  (forall m metric metric',
     P m -> metrics_of sp m !! key = Some metric ->
     Metric_update args metric = Ok metric' ->
     P (set_metrics sp (<[key := metric']> (metrics_of sp m)) m)) ->
  preserves P (update_metric sp key args).
Proof.
  intros Hset m Hm. unfold update_metric, Py.getitem.
  destruct (metrics_of sp m !! key) as [metric|] eqn:E; [|done].
  destruct (Metric_update args metric) as [metric'|e] eqn:U; [|done].
  by eapply Hset.
Qed.

(** Reading the batch, running the network and building the result change
    nothing. *)
Ltac reads_only :=
  repeat first
    [ apply preserves_ret
    | apply preserves_gets
    | apply preserves_lift
    | apply preserves_bind; [|intros ?]
    | match goal with
      | |- preserves _ (let '(_, _) := ?x in _) => destruct x
      | |- preserves _ (match ?x with _ => _ end) => destruct x
      end ].

Lemma preserves_forward P x : preserves P (forward x).
Proof. unfold forward. reads_only. Qed.

Lemma preserves_model_step P batch : preserves P (model_step batch).
Proof. unfold model_step. pose proof (preserves_forward P). reads_only; auto. Qed.

Lemma preserves_predict_step P batch i : preserves P (predict_step batch i).
Proof. unfold predict_step. pose proof (preserves_forward P). reads_only; auto. Qed.

Lemma preserves_configure_optimizers P params : preserves P (configure_optimizers params).
Proof. unfold configure_optimizers. reads_only. Qed.

(** X3.  [forward], [model_step], [predict_step] and
    [configure_optimizers] are observers: whether they return or raise, the
    module object is what it was (hyperparameters, network, task context,
    registries, attributes, device and log). *)
Theorem observers_keep_module m x batch batch_idx params :
  (forward x m).2 = m /\
  (model_step batch m).2 = m /\
  (predict_step batch batch_idx m).2 = m /\
  (configure_optimizers params m).2 = m.
Proof.
  split; [|split; [|split]].
  - by apply (preserves_forward (fun m' => m' = m)).
  - by apply (preserves_model_step (fun m' => m' = m)).
  - by apply (preserves_predict_step (fun m' => m' = m)).
  - by apply (preserves_configure_optimizers (fun m' => m' = m)).
Qed.

(** ** Batches *)










(** X2.  A step reads the three tensors and nothing else: two batches that
    agree on "rgbd_image", "object_ids" and "unit_quaternion" (they may
    differ in "object_name" or in any other key) give the same result and the
    same module, for every step and whatever the batch indices. *)
Theorem steps_read_three_keys batch batch' batch_idx batch_idx' m :
  batch !! "rgbd_image" = batch' !! "rgbd_image" ->
  batch !! "object_ids" = batch' !! "object_ids" ->
  batch !! "unit_quaternion" = batch' !! "unit_quaternion" ->
  model_step batch m = model_step batch' m /\
  training_step batch batch_idx m = training_step batch' batch_idx' m /\
  validation_step batch batch_idx m = validation_step batch' batch_idx' m /\
  test_step batch batch_idx m = test_step batch' batch_idx' m /\
  predict_step batch batch_idx m = predict_step batch' batch_idx' m.
Proof.
  intros H1 H2 H3.
  assert (model_step batch = model_step batch') as Hstep.
  { unfold model_step, Py.getitem. by rewrite H1, H2, H3. }
  repeat split.
  - by rewrite Hstep.
  - unfold training_step. by rewrite Hstep.
  - unfold validation_step. by rewrite Hstep.
  - unfold test_step. by rewrite Hstep.
  - unfold predict_step, Py.getitem. by rewrite H1, H2, H3.
Qed.


(** ** What [log_metrics] changes *)

Lemma preserves_log_metrics P prefix l cl ql pc pq ids uq :
  (forall r m, P m -> P (set_metrics (select_metrics prefix) r m)) ->
  (forall c m, P m -> P (add_log c m)) ->
  preserves P (log_metrics prefix l cl ql pc pq ids uq).
Proof.
  intros Hset Hlog. unfold log_metrics.
  repeat first
    [ apply preserves_gets
    | apply preserves_modify; intros; first [by apply Hset | by apply Hlog]
    | apply preserves_update_metric; intros; by apply Hset
    | apply preserves_bind; [|intros ?] ].
Qed.

Lemma beside_set_metrics sp r m : beside sp (set_metrics sp r m) = beside sp m.
Proof. by destruct sp. Qed.

Lemma beside_add_log sp c m : beside sp (add_log c m) = beside sp m.
Proof. by destruct sp. Qed.

Lemma logs_add_log entry : logs_on_return entry (modify (add_log entry)).
Proof. by intros m. Qed.

Lemma logs_bind {A B} entry (c : M A) (k : A -> M B) :
  (forall l, preserves (fun m => logged m = l) c) ->
  (forall a, logs_on_return entry (k a)) ->
  logs_on_return entry (c ≫= k).
Proof.
  intros Hc Hk m. specialize (Hc (logged m) m eq_refl). unfold mbind, M_bind.
  destruct (c m) as [[a|e] m']; simpl in *; [|done].
  by rewrite Hk, Hc.
Qed.

Lemma logs_log_metrics prefix l cl ql pc pq ids uq :
  logs_on_return (epoch_log (select_metrics prefix))
    (log_metrics prefix l cl ql pc pq ids uq).
Proof.
  unfold log_metrics.
  repeat first
    [ apply logs_add_log
    | apply logs_bind;
      [intros ?;
       first [ apply preserves_gets
             | apply preserves_modify; by intros
             | apply preserves_update_metric; by intros ]
      |intros ?] ].
Qed.

Lemma dom_kept_by_update sp key metric metric' m :
  metrics_of sp m !! key = Some metric ->
  dom (<[key := metric']> (metrics_of sp m)) = dom (metrics_of sp m).
Proof. intros H. apply dom_insert_lookup_L. by rewrite H. Qed.

Lemma log_metrics_keeps_names prefix l cl ql pc pq ids uq m :
  let sp := select_metrics prefix in
  dom (metrics_of sp (log_metrics prefix l cl ql pc pq ids uq m).2) = dom (metrics_of sp m).
Proof.
  cbv zeta. set (sp := select_metrics prefix).
  assert (preserves (fun m' => dom (metrics_of sp m') = dom (metrics_of sp m))
            (log_metrics prefix l cl ql pc pq ids uq)) as H; [|by apply H].
  unfold log_metrics. fold sp.
  repeat first
    [ apply preserves_gets
    | apply preserves_modify; intros m' Hm'; first
        [ by rewrite metrics_of_set_metrics, dom_fmap_L
        | by destruct sp ]
    | apply preserves_update_metric; intros m' metric metric' Hm' Hk _;
      rewrite metrics_of_set_metrics; rewrite <- Hm'; by eapply dom_kept_by_update
    | apply preserves_bind; [|intros ?] ].
Qed.

(** X4.  For every prefix and every module, well formed or not,
    [log_metrics] changes at most the registry it selected and the log: all
    the rest is as before, the selected registry keeps its names, and the log
    gains exactly one end-of-epoch entry for that registry when the call
    returns and none when it raises. *)
Theorem log_metrics_touches_one_registry prefix l cl ql pc pq ids uq m :
  let sp := select_metrics prefix in
  let call := log_metrics prefix l cl ql pc pq ids uq m in
  beside sp call.2 = beside sp m /\
  dom (metrics_of sp call.2) = dom (metrics_of sp m) /\
  logged call.2
  = match call.1 with
    | Ok _ => logged m ++ [epoch_log sp]
    | Raise _ => logged m
    end.
Proof.
  cbv zeta. split; [|split].
  - apply (preserves_log_metrics (fun m' => beside (select_metrics prefix) m'
                                            = beside (select_metrics prefix) m)).
    + intros r m' <-. apply beside_set_metrics.
    + intros c m' <-. apply beside_add_log.
    + done.
  - apply log_metrics_keeps_names.
  - apply logs_log_metrics.
Qed.

Lemma bind_gets {A B} (f : LitModule -> A) (k : A -> M B) m :
  (gets f ≫= k) m = k (f m) m.
Proof. reflexivity. Qed.






(** ** What a step feeds the running means *)




(** ** A new epoch *)

Lemma to_reset_empty d metric :
  Metric_to d (Metric_reset metric) = empty_metric d (kind_of metric).
Proof. by destruct metric. Qed.

Lemma reset_registry_by_kinds d r :
  Metric_to d <$> (Metric_reset <$> r) = empty_metric d <$> (kind_of <$> r).
Proof.
  rewrite <- !map_fmap_compose. apply map_fmap_ext. intros k x _. apply to_reset_empty.
Qed.

Lemma on_epoch_end_reachable hp sp m :
  reachable hp m -> reachable hp (on_epoch_end sp m).2.
Proof.
  intros Hm. destruct sp.
  - apply (reachable_call hp CallOnTrainEpochEnd _ Hm).
  - apply (reachable_call hp CallOnValidationEpochEnd _ Hm).
  - apply (reachable_call hp CallOnTestEpochEnd _ Hm).
Qed.

Lemma reachable_same_context hp m1 m2 :
  reachable hp m1 -> reachable hp m2 -> task_context m1 = task_context m2.
Proof.
  intros (m0 & H0 & _ & C1 & _)%reachable_frame (m0' & H0' & _ & C2 & _)%reachable_frame.
  rewrite C1, C2. congruence.
Qed.

(** X7.  After the epoch-end hook of a split the next [log_metrics] of that
    split does not see the epoch before: from two reachable modules on one
    device, whatever their registries held, the same batch values give the
    same registry. *)
Theorem epoch_end_forgets_the_epoch hp m1 m2 sp l cl ql pc pq ids uq :
  reachable hp m1 -> reachable hp m2 -> device m1 = device m2 ->
  let next m := (log_metrics (split_name sp) l cl ql pc pq ids uq (on_epoch_end sp m).2).2 in
  metrics_of sp (next m1) = metrics_of sp (next m2).
Proof.
  intros H1 H2 Hd. cbv zeta beta.
  pose proof (on_epoch_end_reachable hp sp _ H1) as R1.
  pose proof (on_epoch_end_reachable hp sp _ H2) as R2.
  rewrite !(log_metrics_run sp) by by eapply reachable_well_formed.
  cbn [snd]. rewrite !metrics_of_logged_state. unfold updated_registry.
  pose proof (reachable_same_context hp _ _ R1 R2) as Hctx.
  unfold task_context in Hctx. injection Hctx as _ -> ->.
  rewrite select_metrics_name, !on_epoch_end_run. cbn [snd].
  rewrite !metrics_of_set_metrics.
  replace (device (set_metrics sp (Metric_reset <$> metrics_of sp m1) m1))
    with (device m2) by (by destruct sp).
  replace (device (set_metrics sp (Metric_reset <$> metrics_of sp m2) m2))
    with (device m2) by (by destruct sp).
  rewrite !reset_registry_by_kinds.
  by rewrite (reachable_well_formed hp m1 H1 sp), (reachable_well_formed hp m2 H2 sp).
Qed.

(** ** Construction *)

Lemma fresh_metrics_empty prefix :
  map_Forall (fun _ metric => is_empty metric /\ metric_device metric = "cpu")
    (fresh_metrics prefix).
Proof.
  unfold fresh_metrics, dict_of. cbn [foldl fst snd].
  repeat (apply map_Forall_insert_2; [done|]). apply map_Forall_empty.
Qed.

Lemma metric_name_ne prefix (a b : string) : a ≠ b -> prefix +:+ a ≠ prefix +:+ b.
Proof. intros Hne H. by apply (inj (String.append prefix)) in H. Qed.

Lemma fresh_metrics_size prefix : size (fresh_metrics prefix) = 7%nat.
Proof.
  unfold fresh_metrics, dict_of. cbn [foldl fst snd].
  repeat (rewrite map_size_insert_None;
          [|rewrite ?lookup_insert_ne by (by apply metric_name_ne); apply lookup_empty]).
  by rewrite map_size_empty.
Qed.

Lemma create_metrics_run prefix m :
  exists attrs,
    create_metrics prefix m = (Ok (fresh_metrics prefix), set_attributes attrs m).
Proof. by eexists. Qed.

(** X12.  For every prefix, also an empty or unforeseen one,
    [create_metrics] returns a registry of seven different names, the ones of
    [metric_names], bound to six empty running means and one empty accuracy
    for 77 classes, all on "cpu"; of the module it changes the attributes
    only. *)
Theorem create_metrics_any_prefix prefix m :
  exists registry attrs,
    create_metrics prefix m = (Ok registry, set_attributes attrs m) /\
    size registry = 7%nat /\
    dom registry = metric_names prefix /\
    kind_of <$> registry = registry_kinds prefix /\
    map_Forall (fun _ metric => is_empty metric /\ metric_device metric = "cpu") registry.
Proof.
  destruct (create_metrics_run prefix m) as [attrs Hrun].
  exists (fresh_metrics prefix), attrs. split; [done|].
  split; [apply fresh_metrics_size|].
  split; [by rewrite <- registry_kinds_dom, <- fresh_metrics_kinds, dom_fmap_L|].
  split; [apply fresh_metrics_kinds|apply fresh_metrics_empty].
Qed.

(** X8.  Construction follows the resolver, called with
    [num_classes_for_task] and [task_id]: when it raises, construction raises
    the same exception; when it returns, construction returns a module with
    the two class sets it returned, the constructor's network, task id and
    hyperparameters, an empty log, and three registries of seven empty
    metrics on "cpu". *)
Theorem construction_follows_resolver hp :
  match compute_class_ranges (num_classes_for_task hp) (hp_task_id hp) with
  | Raise e => __init__ hp = Raise e
  | Ok (_, _, current, all_seen) =>
      exists m,
        __init__ hp = Ok m /\
        current_task_classes m = current /\ all_seen_classes m = all_seen /\
        hparams m = hp /\ net m = hp_net hp /\ task_id m = hp_task_id hp /\
        device m = "cpu" /\ logged m = [] /\
        forall sp,
          size (metrics_of sp m) = 7%nat /\
          map_Forall (fun _ metric => is_empty metric /\ metric_device metric = "cpu")
            (metrics_of sp m)
  end.
Proof.
  unfold __init__. destruct (init_body_run hp) as [attrs ->].
  destruct (compute_class_ranges _ _) as [[[[a b] current] all_seen]|e]; [|done].
  eexists. split; [done|]. do 7 (split; [done|]). intros sp.
  split; destruct sp; first [apply fresh_metrics_size | apply fresh_metrics_empty].
Qed.

(** ** What the calls keep *)

Lemma preserves_steps P batch i :
  (forall sp r m, P m -> P (set_metrics sp r m)) ->
  (forall c m, P m -> P (add_log c m)) ->
  preserves P (training_step batch i) /\
  preserves P (validation_step batch i) /\
  preserves P (test_step batch i).
Proof.
  intros Hset Hlog.
  assert (forall prefix l cl ql pc pq ids uq,
            preserves P (log_metrics prefix l cl ql pc pq ids uq)) as Hmetrics.
  { intros. apply preserves_log_metrics; [intros; by apply Hset|done]. }
  unfold training_step, validation_step, test_step.
  repeat split; (apply preserves_bind; [apply preserves_model_step|]);
    intros [[[[[[? ?] ?] ?] ?] ?] ?]; [|done..].
  apply preserves_bind; [done|intros; apply preserves_ret].
Qed.

Lemma after_preserves (P : LitModule -> Prop) c m :
  (forall sp r m, P m -> P (set_metrics sp r m)) ->
  (forall e m, P m -> P (add_log e m)) ->
  (forall d m, P m -> P (set_device d m)) ->
  (forall stage, c = CallSetup stage -> P (setup stage m).2) ->
  P m -> P (after c m).
Proof.
  intros Hset Hlog Hdev Hsetup Hm.
  destruct c; cbn [after].
  - by apply preserves_forward.
  - by apply preserves_model_step.
  - apply preserves_log_metrics; [intros; by apply Hset|done..].
  - by apply (preserves_steps P batch batch_idx Hset Hlog).
  - by apply (preserves_steps P batch batch_idx Hset Hlog).
  - by apply (preserves_steps P batch batch_idx Hset Hlog).
  - by apply Hset.
  - by apply Hset.
  - by apply Hset.
  - by apply preserves_predict_step.
  - by apply Hsetup.
  - by apply preserves_configure_optimizers.
  - unfold to_device, modify. cbn [snd]. by apply Hdev; repeat apply Hset.
Qed.

Lemma preserves_setup_but_net P stage :
  (forall f m, P m -> P (set_net f m)) -> preserves P (setup stage).
Proof.
  intros Hnet. unfold setup. apply preserves_bind; [apply preserves_gets|].
  intros c. destruct (c && _); [|apply preserves_ret].
  apply preserves_modify. intros m. apply Hnet.
Qed.

(** ** The metric attributes *)





(** ** The network *)

Lemma iter_compile_pass_through n (f : Tensor -> Tensor * Tensor) :
  (forall g x, torch_compile g x = g x) ->
  forall x, Nat.iter n torch_compile f x = f x.
Proof.
  intros Hpass x. induction n as [|n IH]; [done|]. simpl. by rewrite Hpass.
Qed.

Lemma net_after c m :
  net (after c m) = net m \/
  (exists stage, c = CallSetup stage) /\ compile (hparams m) = true /\
  net (after c m) = torch_compile (net m).
Proof.
  destruct c.
  all: try (left; apply (after_preserves (fun m' => net m' = net m));
            [by intros []|done|done|by intros ? [=]|done]).
  cbn [after]. unfold setup. rewrite bind_gets.
  destruct (compile (hparams m)) eqn:E; [|by left].
  destruct (bool_decide _); [|by left].
  right. split; [by eexists|done].
Qed.

(** X10.  In every reachable state the network is the constructor's
    network wrapped by [torch.compile] some number of times; with [compile]
    off it is the constructor's network itself.  When [torch.compile] hands
    back a network with the outputs of the one it was given, the module's
    outputs are always those of the constructor's network. *)
Theorem network_only_compiled hp m :
  reachable hp m ->
  (exists n, net m = Nat.iter n torch_compile (hp_net hp)) /\
  (compile hp = false -> net m = hp_net hp) /\
  ((forall g x, torch_compile g x = g x) -> forall x, net m x = hp_net hp x).
Proof.
  intros Hm.
  assert ((exists n, net m = Nat.iter n torch_compile (hp_net hp)) /\
          (compile hp = false -> net m = hp_net hp)) as [[n Hn] Hoff].
  { induction Hm as [m Hm|c m Hm [[n Hn] Hoff]].
    - destruct (init_inv _ _ Hm) as (attrs & a & b & _ & ->). split; [by exists 0%nat|done].
    - destruct (net_after c m) as [->|(_ & Hon & ->)].
      + split; [by exists n|done].
      + rewrite (reachable_hparams hp m Hm) in Hon. split.
        * exists (S n). simpl. by rewrite Hn.
        * intros Hc. congruence. }
  split; [by exists n|]. split; [done|].
  intros Hpass x. rewrite Hn. by apply iter_compile_pass_through.
Qed.

(** ** Steps and the log *)

Lemma logs_then {A B} entry (c : M A) (f : A -> B) :
  logs_on_return entry c -> logs_on_return entry (c ≫= fun a => mret (f a)).
Proof.
  intros Hc m. specialize (Hc m). unfold mbind, M_bind, mret, M_ret.
  by destruct (c m) as [[a|e] m'].
Qed.

Lemma logs_after_model_step {A} entry batch (k : ModelStepOutput -> M A) :
  (forall out, logs_on_return entry (k out)) ->
  logs_on_return entry (model_step batch ≫= k).
Proof.
  intros Hk. apply logs_bind; [|done]. intros l. apply preserves_model_step.
Qed.

Lemma logs_steps batch i :
  logs_on_return (epoch_log Train) (training_step batch i) /\
  logs_on_return (epoch_log Val) (validation_step batch i) /\
  logs_on_return (epoch_log Test) (test_step batch i).
Proof.
  unfold training_step, validation_step, test_step.
  repeat split; apply logs_after_model_step; intros [[[[[[? ?] ?] ?] ?] ?] ?].
  - apply (logs_then _ _ (fun _ => t)). apply (logs_log_metrics "train").
  - apply (logs_log_metrics "val").
  - apply (logs_log_metrics "test").
Qed.

Lemma beside_log_metrics sp m l cl ql pc pq ids uq :
  preserves (fun m' => beside sp m' = beside sp m)
    (log_metrics (split_name sp) l cl ql pc pq ids uq).
Proof.
  apply preserves_log_metrics.
  - intros r m' <-. rewrite select_metrics_name. apply beside_set_metrics.
  - intros c m' <-. apply beside_add_log.
Qed.

Lemma beside_steps batch i m :
  beside Train (training_step batch i m).2 = beside Train m /\
  beside Val (validation_step batch i m).2 = beside Val m /\
  beside Test (test_step batch i m).2 = beside Test m.
Proof.
  unfold training_step, validation_step, test_step.
  split; [|split].
  - apply (preserves_bind (fun m' => beside Train m' = beside Train m)); [..|done].
    { apply preserves_model_step. }
    intros [[[[[[l cl] ql] pc] pq] ids] uq].
    apply preserves_bind; [apply (beside_log_metrics Train)|intros; apply preserves_ret].
  - apply (preserves_bind (fun m' => beside Val m' = beside Val m)); [..|done].
    { apply preserves_model_step. }
    intros [[[[[[l cl] ql] pc] pq] ids] uq]. apply (beside_log_metrics Val).
  - apply (preserves_bind (fun m' => beside Test m' = beside Test m)); [..|done].
    { apply preserves_model_step. }
    intros [[[[[[l cl] ql] pc] pq] ids] uq]. apply (beside_log_metrics Test).
Qed.

(** X11.  Each step changes at most the registry of its own split and the
    log, for every batch and every module: [training_step] leaves the
    validation and test registries alone, and so on; the log gains one entry
    for the step's split when the step returns and none when it raises. *)
Theorem steps_touch_their_own_split batch batch_idx m :
  let train := training_step batch batch_idx m in
  let val := validation_step batch batch_idx m in
  let test := test_step batch batch_idx m in
  (beside Train train.2 = beside Train m /\
   logged train.2
   = match train.1 with Ok _ => logged m ++ [epoch_log Train] | Raise _ => logged m end) /\
  (beside Val val.2 = beside Val m /\
   logged val.2
   = match val.1 with Ok _ => logged m ++ [epoch_log Val] | Raise _ => logged m end) /\
  (beside Test test.2 = beside Test m /\
   logged test.2
   = match test.1 with Ok _ => logged m ++ [epoch_log Test] | Raise _ => logged m end).
Proof.
  cbv zeta. destruct (beside_steps batch batch_idx m) as (B1 & B2 & B3).
  destruct (logs_steps batch batch_idx) as (L1 & L2 & L3).
  repeat split; first [done | apply L1 | apply L2 | apply L3].
Qed.

(** An entry published for the end of the epoch, with the progress bar. *)
Lemma log_after c m :
  logged (after c m) = logged m \/
  exists sp, logged (after c m) = logged m ++ [epoch_log sp].
Proof.
  destruct c as [x|batch|p l cl ql pc pq ids uq|batch batch_idx|batch batch_idx
                |batch batch_idx| | | |batch batch_idx|stage|params|d]; cbn [after].
  - left. by apply (preserves_forward (fun m' => logged m' = logged m)).
  - left. by apply (preserves_model_step (fun m' => logged m' = logged m)).
  - pose proof (logs_log_metrics p l cl ql pc pq ids uq m) as ->.
    destruct (log_metrics _ _ _ _ _ _ _ _ _).1; [right; eexists; reflexivity|by left].
  - destruct (logs_steps batch batch_idx) as (L & _ & _). rewrite (L m).
    destruct (training_step _ _ _).1; [right; eexists; reflexivity|by left].
  - destruct (logs_steps batch batch_idx) as (_ & L & _). rewrite (L m).
    destruct (validation_step _ _ _).1; [right; eexists; reflexivity|by left].
  - destruct (logs_steps batch batch_idx) as (_ & _ & L). rewrite (L m).
    destruct (test_step _ _ _).1; [right; eexists; reflexivity|by left].
  - by left.
  - by left.
  - by left.
  - left. by apply (preserves_predict_step (fun m' => logged m' = logged m)).
  - left. apply (preserves_setup_but_net (fun m' => logged m' = logged m)); by intros.
  - left. by apply (preserves_configure_optimizers (fun m' => logged m' = logged m)).
  - by left.
Qed.

(** X13.  In every reachable state every log entry was published for the
    end of the epoch (not per step) with the progress bar, and no call
    removes or rewrites an entry: the log after a call extends the log
    before. *)
Theorem log_holds_epoch_entries hp m :
  reachable hp m ->
  Forall (fun entry => on_step entry = false /\ on_epoch entry = true /\
                       prog_bar entry = true) (logged m) /\
  forall c, logged m `prefix_of` logged (after c m).
Proof.
  intros Hm. split.
  - induction Hm as [m Hm|c m Hm IH].
    + destruct (init_inv _ _ Hm) as (attrs & a & b & _ & ->). constructor.
    + destruct (log_after c m) as [->|[sp ->]]; [done|].
      apply Forall_app. split; [done|]. by repeat constructor.
  - intros c. destruct (log_after c m) as [->|[sp ->]]; [done|]. by apply prefix_app_r.
Qed.

End Further.

(** * The further properties on the toy module *)

Section FurtherOnDemo.
#[local] Existing Instances Demo.torch Demo.collaborators.

(** X2: the toy batch with and without its "object_name". *)
Lemma steps_read_three_keys_witness :
  training_step Demo.toy_batch 0 Demo.toy_module
  = training_step (delete "object_name" Demo.toy_batch) 1 Demo.toy_module.
Proof.
  apply (steps_read_three_keys Demo.toy_batch (delete "object_name" Demo.toy_batch)
           0 1 Demo.toy_module); reflexivity.
Defined.


(** X7: the fresh and the trained module after an epoch end and a step. *)
Lemma epoch_end_forgets_the_epoch_witness :
  let next m :=
    (log_metrics "train" (Demo.Scalar 0.25) (Demo.Scalar 0) (Demo.Scalar 0.5)
       (Demo.Matrix [[0.5; 2; 1]; [3; 0.25; 1]]%float)
       (Demo.Matrix [[1; 0; 0; 0]; [1; 0; 0; 0]]%float)
       (Demo.Labels [1; 0])
       (Demo.Matrix [[1; 0; 0; 0]; [0; 1; 0; 0]]%float)
       (on_epoch_end Train m).2).2 in
  train_metrics (next Demo.toy_module) = train_metrics (next Demo.trained_module).
Proof.
  apply (epoch_end_forgets_the_epoch (Demo.toy_hparams 1 (Some 2))
           Demo.toy_module Demo.trained_module Train).
  - exact toy_module_reachable.
  - exact trained_module_reachable.
  - reflexivity.
Defined.


(** X10 on the trained module, whose [compile] is off. *)
Lemma network_only_compiled_witness :
  net Demo.trained_module = Demo.toy_net.
Proof.
  exact (proj1 (proj2 (network_only_compiled (Demo.toy_hparams 1 (Some 2))
                         Demo.trained_module trained_module_reachable)) eq_refl).
Defined.

(** X13 on the trained module. *)
Lemma log_holds_epoch_entries_witness :
  Forall (fun entry => on_step entry = false /\ on_epoch entry = true /\
                       prog_bar entry = true) (logged Demo.trained_module).
Proof.
  exact (proj1 (log_holds_epoch_entries (Demo.toy_hparams 1 (Some 2))
                  Demo.trained_module trained_module_reachable)).
Defined.

Example trained_module_log : logged Demo.trained_module = [epoch_log Train].
Proof. vm_compute. reflexivity. Qed.

Example incomplete_batch_raises :
  (training_step (delete "object_ids" Demo.toy_batch) 0 Demo.toy_module).1
  = Raise (KeyError "object_ids").
Proof. vm_compute. reflexivity. Qed.

End FurtherOnDemo.
